(** * MissingTargetCost (pylearn2/costs/mlp/missing_target_cost.py)

    A shallow embedding of the cost that ignores missing targets, and the
    properties of its two methods, [expr] and [get_data_specs].

    The cost is an adapter over a model object: every tensor operation but
    the masking product is delegated to the model.  The embedding therefore
    has three layers:
    - the values the code computes on (scalars, tensors, the two Theano
      elementwise operations the method applies itself);
    - the effects the code has: Python exceptions, the mutable state of the
      model and of the surrounding framework, the attribute dictionary of the
      cost object;
    - the methods of the class, written in a state-and-exception monad. *)

From Stdlib Require Import ZArith QArith Qcanon SpecFloat.
From stdpp Require Import gmap strings list numbers.

(** ** Scalars

    A Theano tensor has a dtype chosen by the model.  The cost only needs,
    of that dtype, the sentinel [-1], an equality test against it, and the
    product with the 0/1 values of the mask. *)

Class Dtype (A : Type) := {
  dt_eq_dec :: EqDecision A;
  dt_zero : A;
  dt_one : A;
  dt_neg_one : A;
  dt_mul : A → A → A
}.

(** The two facts of exact arithmetic the masking relies on.  They hold of
    the integers and of the rationals.  They are kept apart from [Dtype] so
    that every statement that depends on them says so.  The second does not
    hold of a floating-point dtype, where the product of an infinity or of a
    NaN with zero is a NaN: see [F64_dtype] below. *)
Class ExactDtype (A : Type) `{Dtype A} : Prop := {
  dt_mul_one_r : ∀ x : A, dt_mul x dt_one = x;
  dt_mul_zero_r : ∀ x : A, dt_mul x dt_zero = dt_zero
}.

#[export] Instance Z_dtype : Dtype Z := {|
  dt_zero := 0%Z; dt_one := 1%Z; dt_neg_one := (-1)%Z; dt_mul := Z.mul
|}.

#[export] Instance Qc_dtype : Dtype Qc := {|
  dt_eq_dec := Qc_eq_dec;
  dt_zero := Q2Qc 0; dt_one := Q2Qc 1; dt_neg_one := Q2Qc (-1);
  dt_mul := Qcmult
|}.

#[export] Instance Z_exact : ExactDtype Z.
Proof. split; intros x; simpl; lia. Qed.

#[export] Instance Qc_exact : ExactDtype Qc.
Proof. split; intros x; simpl; [apply Qcmult_1_r | apply Qcmult_0_r]. Qed.

(** IEEE binary64, the dtype float64 of a cost matrix: the values and the
    operations of the specification of floating-point numbers, at precision
    53 and maximal exponent 1024. *)
Definition F64_mul : spec_float → spec_float → spec_float := SFmul 53 1024.
Definition F64_add : spec_float → spec_float → spec_float := SFadd 53 1024.
Definition F64_zero : spec_float := S754_zero false.
Definition F64_half : spec_float :=
  S754_finite false 4503599627370496 (-53).
Definition F64_one : spec_float := S754_finite false 4503599627370496 (-52).
Definition F64_two : spec_float := S754_finite false 4503599627370496 (-51).
Definition F64_neg_one : spec_float :=
  S754_finite true 4503599627370496 (-52).
Definition F64_inf : spec_float := S754_infinity false.
Definition F64_nan : spec_float := S754_nan.

#[export] Instance spec_float_eq_dec : EqDecision spec_float.
Proof. solve_decision. Defined.

(** On normalised values the test [y ≠ -1] is the comparison of IEEE: [-1]
    has one representation, and a NaN differs from [-1] in both. *)
#[export] Instance F64_dtype : Dtype spec_float := {|
  dt_zero := F64_zero; dt_one := F64_one; dt_neg_one := F64_neg_one;
  dt_mul := F64_mul
|}.

(** ** Tensors

    A tensor is a shape and its entries in row-major order, as in NumPy. *)

Record Tensor (A : Type) := mkTensor {
  shape : list nat;
  data : list A
}.
Arguments mkTensor {A} shape data.
Arguments shape {A} t.
Arguments data {A} t.

(** The number of entries a shape announces. *)
Definition numel (sh : list nat) : nat := foldr Nat.mul 1 sh.

(** The invariant of a tensor value: as many entries as its shape says. *)
Definition tensor_wf {A} (t : Tensor A) : Prop :=
  length (data t) = numel (shape t).

#[export] Instance tensor_eq_dec {A} `{EqDecision A} : EqDecision (Tensor A).
Proof. solve_decision. Defined.

#[export] Instance tensor_wf_dec {A} (t : Tensor A) : Decision (tensor_wf t).
Proof. unfold tensor_wf. apply _. Defined.

(** ** Python exceptions and results *)

Inductive PyExc :=
  | DataSpecMismatch
  | ValueError
  | IndexError
  | AttributeError
  | TypeError
  | ModelError (tag : string).

#[export] Instance PyExc_eq_dec : EqDecision PyExc.
Proof. solve_decision. Defined.

Inductive result (R : Type) :=
  | Ok (r : R)
  | Raise (e : PyExc).
Arguments Ok {R} r.
Arguments Raise {R} e.

#[export] Instance result_eq_dec {R} `{EqDecision R} : EqDecision (result R).
Proof. solve_decision. Defined.

(** ** The two elementwise operations of [expr]

    [T.neq(Y, -1)]: the scalar is broadcast against [Y]; the result has the
    shape of [Y] and dtype int8 with values 0 and 1, here [bool]. *)
Definition T_neq {A} `{Dtype A} (Y : Tensor A) (c : A) : Tensor bool :=
  mkTensor (shape Y) (map (λ y, bool_decide (y ≠ c)) (data Y)).

(** The int8 operand of a product is upcast to the dtype of the other. *)
Definition upcast {A} `{Dtype A} (b : bool) : A :=
  if b then dt_one else dt_zero.

(** [costMatrix * mask]: a tensor variable has no in-place product, so
    [costMatrix *= mask] rebinds the name to the elementwise product.  The
    product is modelled for operands of one shape, the case of a cost matrix
    as the last layer returns it: the entries are multiplied one by one.
    Operands of different shapes, which Theano broadcasts where it can, are
    outside the model, which stops there with a [ValueError]; the statements
    below that depend on the product assume equal shapes or a product that
    is defined. *)
Definition T_mul {A} `{Dtype A} (C : Tensor A) (mask : Tensor bool)
  : result (Tensor A) :=
  if decide (shape C = shape mask)
  then Ok (mkTensor (shape C)
             (zip_with (λ c b, dt_mul c (upcast b)) (data C) (data mask)))
  else Raise ValueError.

(** The all-zero tensor of a shape. *)
Definition T_zeros {A} `{Dtype A} (sh : list nat) : Tensor A :=
  mkTensor sh (replicate (numel sh) dt_zero).

(** ** The framework around the cost

    What the module imports and does not define: the scalar dtype of the
    tensors, the mutable state of the model and of the framework (the world),
    the elementary spaces a model declares, with the test deciding whether a
    space accepts a tensor, and the values a dropout argument can take. *)

Class Backend := {
  scalar : Type;
  scalar_dtype :: Dtype scalar;
  World : Type;
  Space : Type;
  Value : Type;
  space_accepts : Space → Tensor scalar → bool
}.

(** [CompositeSpace(components)] of pylearn2.space. *)
Record CompositeSpace {B : Backend} := mkCompositeSpace {
  components : list Space
}.
Arguments mkCompositeSpace {_} components.

(** A method of the model: it reads and may change the world, and returns
    or raises; a change made before a raise stays. *)
Definition Eff {B : Backend} (R : Type) : Type := World → World * result R.

(** [model.layers[-1]] exposes [cost_matrix(Y, Y_hat)]. *)
Record Layer {B : Backend} := mkLayer {
  cost_matrix : Tensor scalar → Tensor scalar → Eff (Tensor scalar)
}.
Arguments mkLayer {_} cost_matrix.

(** The capabilities [MissingTargetCost] uses of a model. *)
Record Model {B : Backend} := mkModel {
  layers : list Layer;
  get_input_space : Eff Space;
  get_output_space : Eff Space;
  get_input_source : Eff string;
  get_target_source : Eff string;
  fprop : Tensor scalar → Eff (Tensor scalar);
  dropout_fprop : Tensor scalar → gmap string Value → Eff (Tensor scalar);
  cost_from_cost_matrix : Tensor scalar → Eff scalar
}.
Arguments mkModel {_} _ _ _ _ _ _ _ _.

(** The calls made on the model, with their arguments: a ghost log, kept
    to state which method ran, on what, and in which order. *)
Inductive Call {B : Backend} :=
  | CallGetInputSpace
  | CallGetOutputSpace
  | CallGetInputSource
  | CallGetTargetSource
  | CallFprop (X : Tensor scalar)
  | CallDropoutFprop (X : Tensor scalar) (kwargs : gmap string Value)
  | CallCostMatrix (Y Y_hat : Tensor scalar)
  | CallCostFromCostMatrix (C : Tensor scalar).

(** Is the call one of the two forward passes? *)
Definition is_forward {B : Backend} (c : Call) : bool :=
  match c with
  | CallFprop _ | CallDropoutFprop _ _ => true
  | _ => false
  end.

(** ** The cost object

    A value of an instance attribute: the object itself (what [locals()]
    binds to the name [self]), or a [dropout_args] argument, which is [None]
    or a mapping from keyword to value. *)
Inductive Attr {B : Backend} :=
  | AttrSelf
  | AttrArgs (args : option (gmap string Value)).

(** The class attribute [supervised = True]. *)
Definition supervised : bool := true.

(** The state a method runs in: the instance dictionary of the cost, the
    world of the model, and the log of the calls made so far. *)
Record State {B : Backend} := mkState {
  self_dict : gmap string Attr;
  world : World;
  calls : list Call
}.
Arguments mkState {_} self_dict world calls.

(** ** The monad of the methods *)

Definition M {B : Backend} (R : Type) : Type := State → State * result R.

Definition ret {B : Backend} {R} (r : R) : M R := λ s, (s, Ok r).

Definition raise {B : Backend} {R} (e : PyExc) : M R := λ s, (s, Raise e).

Definition bind {B : Backend} {R1 R2} (c : M R1) (k : R1 → M R2) : M R2 :=
  λ s, match c s with
       | (s', Ok r) => k r s'
       | (s', Raise e) => (s', Raise e)
       end.

#[export] Instance M_ret {B : Backend} : MRet M := @ret _.
#[export] Instance M_bind {B : Backend} : MBind M := λ _ _ k c, bind c k.

(** A method call on the model: it acts on the world and is logged. *)
Definition invoke {B : Backend} {R} (c : Call) (f : Eff R) : M R :=
  λ s, let '(w, r) := f (world s) in
       (mkState (self_dict s) w (calls s ++ [c]), r).

(** A value computed without the model, or the exception it ends in. *)
Definition lift_result {B : Backend} {R} (r : result R) : M R := λ s, (s, r).

(** [self.name]: an [AttributeError] when the instance has no such
    attribute. *)
Definition getattr {B : Backend} (name : string) : M Attr :=
  λ s, match self_dict s !! name with
       | Some a => (s, Ok a)
       | None => (s, Raise AttributeError)
       end.

(** [self.__dict__.update(d)]: the entries of [d] override those present. *)
Definition dict_update {B : Backend} (d : gmap string Attr) : M unit :=
  λ s, (mkState (d ∪ self_dict s) (world s) (calls s), Ok tt).

(** [del self.name]. *)
Definition delattr {B : Backend} (name : string) : M unit :=
  λ s, match self_dict s !! name with
       | Some _ => (mkState (delete name (self_dict s)) (world s) (calls s),
                    Ok tt)
       | None => (s, Raise AttributeError)
       end.

(** Truth value of an attribute in a condition: [None] and the empty
    mapping are false, a non-empty mapping and an object are true. *)
Definition truthy {B : Backend} (a : Attr) : bool :=
  match a with
  | AttrSelf => true
  | AttrArgs None => false
  | AttrArgs (Some kwargs) => bool_decide (kwargs ≠ ∅)
  end.

(** [**a] in a call: [a] has to be a mapping. *)
Definition as_kwargs {B : Backend} (a : Attr) : M (gmap string Value) :=
  match a with
  | AttrArgs (Some kwargs) => mret kwargs
  | _ => raise TypeError
  end.

(** [(X, Y) = data]: the tuple has to have two components. *)
Definition unpack_pair {B : Backend} (data : list (Tensor scalar))
  : M (Tensor scalar * Tensor scalar) :=
  match data with
  | [X; Y] => mret (X, Y)
  | _ => raise ValueError
  end.

(** [model.layers[-1]]. *)
Definition last_layer {B : Backend} (model : Model) : M Layer :=
  match list.last (layers model) with
  | Some layer => mret layer
  | None => raise IndexError
  end.

(** Modelled from the spec: [CompositeSpace.validate] of pylearn2.space,
    which the module calls and does not define.  A batch matches a composite
    space when it has one component for each component of the space and each
    space accepts its component; a batch that does not match fails with
    [DataSpecMismatch]. *)
Definition composite_accepts {B : Backend} (space : CompositeSpace)
    (data : list (Tensor scalar)) : bool :=
  bool_decide (length data = length (components space))
  && forallb (λ p, space_accepts p.1 p.2) (zip (components space) data).

Definition validate {B : Backend} (space : CompositeSpace)
    (data : list (Tensor scalar)) : M unit :=
  if composite_accepts space data then mret () else raise DataSpecMismatch.

(** ** The methods of [MissingTargetCost] *)

(** [locals()] inside [__init__]. *)
Definition init_locals {B : Backend} (dropout_args : option (gmap string Value))
  : gmap string Attr :=
  {[ "self" := AttrSelf; "dropout_args" := AttrArgs dropout_args ]}.

(** [def __init__(self, dropout_args=None)]. *)
Definition init {B : Backend} (dropout_args : option (gmap string Value))
  : M unit :=
  dict_update (init_locals dropout_args);;
  delattr "self".

(** [MissingTargetCost(dropout_args)]: [__init__] runs on a fresh instance,
    whose dictionary is empty. *)
Definition construct {B : Backend} (dropout_args : option (gmap string Value))
    (w : World) (log : list Call) : State * result unit :=
  init dropout_args (mkState ∅ w log).

(** [def get_data_specs(self, model)]. *)
Definition get_data_specs {B : Backend} (model : Model)
  : M (CompositeSpace * (string * string)) :=
  input_space ← invoke CallGetInputSpace (get_input_space model);
  output_space ← invoke CallGetOutputSpace (get_output_space model);
  let space := mkCompositeSpace [input_space; output_space] in
  input_source ← invoke CallGetInputSource (get_input_source model);
  target_source ← invoke CallGetTargetSource (get_target_source model);
  let sources := (input_source, target_source) in
  mret (space, sources).

(** [def expr(self, model, data)]. *)
Definition expr {B : Backend} (model : Model) (data : list (Tensor scalar))
  : M scalar :=
  '(space, sources) ← get_data_specs model;
  validate space data;;
  '(X, Y) ← unpack_pair data;
  args ← getattr "dropout_args";
  Y_hat ← (if truthy args
           then kwargs ← getattr "dropout_args" ≫= as_kwargs;
                invoke (CallDropoutFprop X kwargs)
                       (dropout_fprop model X kwargs)
           else invoke (CallFprop X) (fprop model X));
  layer ← last_layer model;
  costMatrix ← invoke (CallCostMatrix Y Y_hat) (cost_matrix layer Y Y_hat);
  costMatrix ← lift_result (T_mul costMatrix (T_neq Y dt_neg_one));
  invoke (CallCostFromCostMatrix costMatrix)
         (cost_from_cost_matrix model costMatrix).

(** ** Test doubles

    A backend over any dtype: the world counts the forward passes run, a
    space is the width of a matrix, dropout arguments are integers. *)
Definition stub_backend (A : Type) `{Dtype A} : Backend := {|
  scalar := A;
  World := nat;
  Space := nat;
  Value := Z;
  space_accepts := λ dim t,
    match shape t with
    | [_; width] => bool_decide (width = dim)
    | _ => false
    end
|}.

(** A model over that backend, with vectors of width [n_in] in and [n_out]
    out.  Both forward passes return the input as the prediction and count
    themselves in the world; the last layer returns the cost matrix [raw];
    the cost is what [reduce] makes of the entries. *)
Definition stub_layer {A : Type} `{Dtype A} (raw : Tensor A)
  : @Layer (stub_backend A) :=
  mkLayer (B := stub_backend A) (λ Y Y_hat w, (w, Ok raw)).

Definition stub_model {A : Type} `{Dtype A} (n_in n_out : nat)
    (raw : Tensor A) (reduce : list A → A) : @Model (stub_backend A) :=
  mkModel (B := stub_backend A)
    [stub_layer raw]
    (λ w, (w, Ok n_in))
    (λ w, (w, Ok n_out))
    (λ w, (w, Ok "features"))
    (λ w, (w, Ok "targets"))
    (λ X w, (S w, Ok X))
    (λ X kwargs w, (S (S w), Ok X))
    (λ C w, (w, Ok (reduce (data C)))).

(** The same model with methods that raise. *)
Definition failing_fprop {A : Type} `{Dtype A} (m : @Model (stub_backend A))
  : @Model (stub_backend A) :=
  mkModel (B := stub_backend A)
    (layers m) (get_input_space m) (get_output_space m)
    (get_input_source m) (get_target_source m)
    (λ X w, (S w, Raise (ModelError "fprop")))
    (λ X kwargs w, (S (S w), Raise (ModelError "dropout_fprop")))
    (cost_from_cost_matrix m).

Definition failing_cost_matrix {A : Type} `{Dtype A}
    (m : @Model (stub_backend A)) : @Model (stub_backend A) :=
  mkModel (B := stub_backend A)
    [mkLayer (B := stub_backend A)
       (λ Y Y_hat w, (w, Raise (ModelError "cost_matrix")))]
    (get_input_space m) (get_output_space m)
    (get_input_source m) (get_target_source m)
    (fprop m) (dropout_fprop m) (cost_from_cost_matrix m).

(** The scenario of the specification, in two dtypes: targets
    [[1, -1], [-1, 2]], raw costs [[0.5, 0.3], [0.7, 0.2]] (ten times that
    over the integers), a reduction that sums. *)
Definition X0 {A} `{Dtype A} : Tensor A :=
  mkTensor [2; 3] (replicate 6 dt_one).

Definition Y0_Z : Tensor Z := mkTensor [2; 2] [1; -1; -1; 2]%Z.
Definition raw0_Z : Tensor Z := mkTensor [2; 2] [5; 3; 7; 2]%Z.
Definition sum_Z (l : list Z) : Z := foldr Z.add 0%Z l.
Definition model0_Z : @Model (stub_backend Z) := stub_model 3 2 raw0_Z sum_Z.

(** A model whose input and output spaces have the same width, a batch of
    the wrong shape for [model0_Z], and targets none of which, and all of
    which, are missing. *)
Definition model1_Z : @Model (stub_backend Z) := stub_model 2 2 raw0_Z sum_Z.
Definition X1_Z : Tensor Z := mkTensor [2; 2] [4; 4; 4; 4]%Z.
Definition bad_batch_Z : list (Tensor Z) := [Y0_Z; Y0_Z].
Definition Y_none_Z : Tensor Z := mkTensor [2; 2] [-1; -1; -1; -1]%Z.

Definition Y0_Qc : Tensor Qc :=
  mkTensor [2; 2] (Q2Qc <$> [1; -1; -1; 2]%Q).
Definition raw0_Qc : Tensor Qc :=
  mkTensor [2; 2] (Q2Qc <$> [5 # 10; 3 # 10; 7 # 10; 2 # 10]%Q).
Definition sum_Qc (l : list Qc) : Qc := foldr Qcplus (Q2Qc 0) l.
Definition model0_Qc : @Model (stub_backend Qc) :=
  stub_model 3 2 raw0_Qc sum_Qc.

(** Dropout arguments, and the state of a cost constructed with given
    arguments in a world where no forward pass has run. *)
Definition kwargs0 : gmap string Z := {[ "default_input_scale" := 2%Z ]}.

Definition fresh {B : Backend} (dropout_args : option (gmap string Value))
    (w : World) : State :=
  (construct dropout_args w []).1.

Definition fresh_Z (dropout_args : option (gmap string Z)) (w : nat)
  : @State (stub_backend Z) :=
  fresh (B := stub_backend Z) dropout_args w.

Definition fresh_Qc (dropout_args : option (gmap string Z)) (w : nat)
  : @State (stub_backend Qc) :=
  fresh (B := stub_backend Qc) dropout_args w.

(** The scenario over float64, with raw costs that are not finite where
    the targets are missing: targets [[1, -1], [-1, 2]], raw costs
    [[0.5, inf], [nan, 2.0]]; and targets that are all missing. *)
Definition Y0_F : Tensor spec_float :=
  mkTensor [2; 2] [F64_one; F64_neg_one; F64_neg_one; F64_two].
Definition Y_none_F : Tensor spec_float :=
  mkTensor [2; 2] [F64_neg_one; F64_neg_one; F64_neg_one; F64_neg_one].
Definition raw0_F : Tensor spec_float :=
  mkTensor [2; 2] [F64_half; F64_inf; F64_nan; F64_two].
Definition sum_F (l : list spec_float) : spec_float :=
  foldr F64_add F64_zero l.
Definition model0_F : @Model (stub_backend spec_float) :=
  stub_model 3 2 raw0_F sum_F.

Definition fresh_F (dropout_args : option (gmap string Z)) (w : nat)
  : @State (stub_backend spec_float) :=
  fresh (B := stub_backend spec_float) dropout_args w.

(** ** Vocabulary of the statements *)

(** The instance dictionary of a cost constructed with [dropout_args]. *)
Definition cost_dict {B : Backend} (dropout_args : option (gmap string Value))
  : gmap string Attr :=
  {[ "dropout_args" := AttrArgs dropout_args ]}.

(** The forward pass a stored [dropout_args] selects, and the call it is
    logged as: the dropout pass for a non-empty mapping, the standard pass
    for [None] and for the empty mapping. *)
Definition selected_forward {B : Backend} (model : Model)
    (dropout_args : option (gmap string Value)) (X : Tensor scalar)
  : Eff (Tensor scalar) :=
  match dropout_args with
  | Some kwargs =>
      if decide (kwargs = ∅) then fprop model X
      else dropout_fprop model X kwargs
  | None => fprop model X
  end.

Definition selected_call {B : Backend}
    (dropout_args : option (gmap string Value)) (X : Tensor scalar) : Call :=
  match dropout_args with
  | Some kwargs =>
      if decide (kwargs = ∅) then CallFprop X else CallDropoutFprop X kwargs
  | None => CallFprop X
  end.

(** The calls [get_data_specs] makes. *)
Definition accessor_calls {B : Backend} : list Call :=
  [CallGetInputSpace; CallGetOutputSpace; CallGetInputSource;
   CallGetTargetSource].

(** A method whose result does not depend on the world it runs in, and a
    model all of whose methods are such. *)
Definition world_independent {B : Backend} {R} (f : Eff R) : Prop :=
  ∀ w w' : World, (f w).2 = (f w').2.

Record deterministic {B : Backend} (model : Model) : Prop := {
  det_input_space : world_independent (get_input_space model);
  det_output_space : world_independent (get_output_space model);
  det_input_source : world_independent (get_input_source model);
  det_target_source : world_independent (get_target_source model);
  det_fprop : ∀ X, world_independent (fprop model X);
  det_dropout_fprop :
    ∀ X kwargs, world_independent (dropout_fprop model X kwargs);
  det_cost_matrix :
    ∀ layer Y Y_hat, list.last (layers model) = Some layer →
                     world_independent (cost_matrix layer Y Y_hat);
  det_cost_from_cost_matrix :
    ∀ C, world_independent (cost_from_cost_matrix model C)
}.

(** A batch as the caller of [expr] assembles it: the tuple of tensors
    handed over as [data], and the names of the sources its components were
    drawn from.  [expr] receives [batch_data] alone. *)
Record LabelledBatch {B : Backend} := mkLabelledBatch {
  batch_sources : string * string;
  batch_data : list (Tensor scalar)
}.
Arguments mkLabelledBatch {_} batch_sources batch_data.

(** A batch for [model1_Z] with its two components exchanged: the targets
    come first, the features second. *)
Definition swapped_batch : @LabelledBatch (stub_backend Z) :=
  mkLabelledBatch (B := stub_backend Z) ("targets", "features") [Y0_Z; X1_Z].

(** The state after the accessors of a stub model ran for a cost constructed
    with [dropout_args]. *)
Definition after_specs (dropout_args : option (gmap string Z))
  : @State (stub_backend Z) :=
  mkState (B := stub_backend Z)
    (cost_dict (B := stub_backend Z) dropout_args) 0
    (accessor_calls (B := stub_backend Z)).

(** A computation that leaves the instance dictionary of the cost as it
    found it. *)
Definition preserves_self {B : Backend} {R} (c : M R) : Prop :=
  ∀ s, self_dict (c s).1 = self_dict s.

(** A computation whose result is the same in any two states that hold the
    same cost object, whatever the world and the log. *)
Definition repeatable {B : Backend} {R} (c : M R) : Prop :=
  ∀ s s', self_dict s = self_dict s' → (c s).2 = (c s').2.

(** A computation that leaves the world of the model as it found it, and a
    model none of whose methods changes the world. *)
Definition preserves_world {B : Backend} {R} (c : M R) : Prop :=
  ∀ s, world (c s).1 = world s.

Definition leaves_world {B : Backend} {R} (f : Eff R) : Prop :=
  ∀ w : World, (f w).1 = w.

Record read_only {B : Backend} (model : Model) : Prop := {
  ro_input_space : leaves_world (get_input_space model);
  ro_output_space : leaves_world (get_output_space model);
  ro_input_source : leaves_world (get_input_source model);
  ro_target_source : leaves_world (get_target_source model);
  ro_fprop : ∀ X, leaves_world (fprop model X);
  ro_dropout_fprop : ∀ X kwargs, leaves_world (dropout_fprop model X kwargs);
  ro_cost_matrix :
    ∀ layer Y Y_hat, list.last (layers model) = Some layer →
                     leaves_world (cost_matrix layer Y Y_hat);
  ro_cost_from_cost_matrix :
    ∀ C, leaves_world (cost_from_cost_matrix model C)
}.

(** The model record with another list in its [layers] field, its methods,
    the forward passes among them, being kept as they are; and the model
    whose two source accessors return other names: what they return is
    passed through [f] and [g]. *)
Definition with_layers {B : Backend} (model : Model) (ls : list Layer)
  : Model :=
  mkModel ls (get_input_space model) (get_output_space model)
    (get_input_source model) (get_target_source model)
    (fprop model) (dropout_fprop model) (cost_from_cost_matrix model).

Definition map_result {R1 R2} (f : R1 → R2) (r : result R1) : result R2 :=
  match r with
  | Ok x => Ok (f x)
  | Raise e => Raise e
  end.

Definition with_sources {B : Backend} (f g : string → string)
    (model : Model) : Model :=
  mkModel (layers model) (get_input_space model) (get_output_space model)
    (λ w, let '(w', r) := get_input_source model w in (w', map_result f r))
    (λ w, let '(w', r) := get_target_source model w in (w', map_result g r))
    (fprop model) (dropout_fprop model) (cost_from_cost_matrix model).

(** A stub model whose forward passes do not count themselves, a stub model
    without layers, and the state of an object that was never given a
    [dropout_args] attribute. *)
Definition quiet_model_Z : @Model (stub_backend Z) :=
  mkModel (B := stub_backend Z)
    [stub_layer raw0_Z]
    (λ w, (w, Ok 3)) (λ w, (w, Ok 2))
    (λ w, (w, Ok "features")) (λ w, (w, Ok "targets"))
    (λ X w, (w, Ok X)) (λ X kwargs w, (w, Ok X))
    (λ C w, (w, Ok (sum_Z (data C)))).

Definition no_input_space_Z : @Model (stub_backend Z) :=
  mkModel (B := stub_backend Z)
    [stub_layer raw0_Z]
    (λ w, (S w, Raise (ModelError "get_input_space"))) (λ w, (w, Ok 2))
    (λ w, (w, Ok "features")) (λ w, (w, Ok "targets"))
    (λ X w, (S w, Ok X)) (λ X kwargs w, (S (S w), Ok X))
    (λ C w, (w, Ok (sum_Z (data C)))).

Definition no_layers_Z : @Model (stub_backend Z) :=
  with_layers (B := stub_backend Z) model0_Z [].

Definition bare_Z : @State (stub_backend Z) :=
  mkState (B := stub_backend Z) ∅ 0 [].

(** The state after the accessors of a stub model ran on [bare_Z]. *)
Definition bare_after_specs : @State (stub_backend Z) :=
  mkState (B := stub_backend Z) ∅ 0 (accessor_calls (B := stub_backend Z)).

(** The masked cost matrix of the scenario. *)
Definition masked0_Z : Tensor Z := mkTensor [2; 2] [5; 0; 0; 2]%Z.

(** ** Entries of the masked cost matrix *)

Section masking.
Context {A : Type} `{Dtype A}.
Implicit Types C Y : Tensor A.

Lemma T_neq_shape Y c : shape (T_neq Y c) = shape Y.
Proof. reflexivity. Qed.

Lemma T_mul_Ok C Y c :
  shape C = shape Y →
  T_mul C (T_neq Y c) =
    Ok (mkTensor (shape C)
          (zip_with (λ x b, dt_mul x (upcast b)) (data C)
             (data (T_neq Y c)))).
Proof. intros Hsh. unfold T_mul. rewrite T_neq_shape, decide_True; done. Qed.

Lemma T_mul_Raise C Y c :
  shape C ≠ shape Y → T_mul C (T_neq Y c) = Raise ValueError.
Proof. intros Hsh. unfold T_mul. rewrite T_neq_shape, decide_False; done. Qed.

Lemma T_mul_shape C mask Cm : T_mul C mask = Ok Cm → shape Cm = shape C.
Proof.
  unfold T_mul. case_decide; [|done]. intros [= <-]. reflexivity.
Qed.

(** An entry of the product, from the entries of the factors. *)
Lemma T_mul_lookup C Y c Cm i :
  T_mul C (T_neq Y c) = Ok Cm →
  data Cm !! i =
    x ← data C !! i; y ← data Y !! i;
    Some (dt_mul x (upcast (bool_decide (y ≠ c)))).
Proof.
  unfold T_mul. case_decide; [|done]. intros [= <-]. simpl.
  rewrite lookup_zip_with, list_lookup_fmap.
  destruct (data C !! i), (data Y !! i); reflexivity.
Qed.

Lemma wf_same_length C Y :
  tensor_wf C → tensor_wf Y → shape C = shape Y →
  length (data C) = length (data Y).
Proof. unfold tensor_wf. intros -> -> ->. reflexivity. Qed.

Lemma masked_missing `{!ExactDtype A} C Y Cm i :
  T_mul C (T_neq Y dt_neg_one) = Ok Cm →
  length (data C) = length (data Y) →
  data Y !! i = Some dt_neg_one →
  data Cm !! i = Some dt_zero.
Proof.
  intros Hmul Hlen Hy. rewrite (T_mul_lookup _ _ _ _ _ Hmul), Hy.
  destruct (data C !! i) as [x|] eqn:Hx.
  - simpl. rewrite bool_decide_false by (intros ?; done).
    simpl. by rewrite dt_mul_zero_r.
  - apply lookup_ge_None in Hx. apply lookup_lt_Some in Hy. lia.
Qed.

Lemma masked_present `{!ExactDtype A} C Y Cm i y :
  T_mul C (T_neq Y dt_neg_one) = Ok Cm →
  data Y !! i = Some y → y ≠ dt_neg_one →
  data Cm !! i = data C !! i.
Proof.
  intros Hmul Hy Hne. rewrite (T_mul_lookup _ _ _ _ _ Hmul), Hy.
  destruct (data C !! i) as [x|]; [|done].
  simpl. rewrite bool_decide_true by done. simpl. by rewrite dt_mul_one_r.
Qed.

(** The product does not depend on the raw costs at the missing
    positions. *)
Lemma masked_independent `{!ExactDtype A} C C' Y Cm :
  T_mul C (T_neq Y dt_neg_one) = Ok Cm →
  shape C' = shape C →
  length (data C') = length (data C) →
  (∀ i y, data Y !! i = Some y → y ≠ dt_neg_one →
          data C' !! i = data C !! i) →
  T_mul C' (T_neq Y dt_neg_one) = Ok Cm.
Proof.
  intros Hmul Hsh Hlen Hagree.
  assert (shape C = shape Y) as HshY.
  { unfold T_mul in Hmul. case_decide; [done|done]. }
  rewrite T_mul_Ok by congruence.
  rewrite T_mul_Ok in Hmul by done. injection Hmul as <-.
  f_equal. f_equal; [done|].
  apply list_eq. intros i. rewrite !lookup_zip_with. simpl.
  rewrite !list_lookup_fmap.
  destruct (data Y !! i) as [y|] eqn:Hy; simpl.
  - destruct (decide (y = dt_neg_one)) as [->|Hne].
    + rewrite bool_decide_false by (intros ?; done). simpl.
      destruct (data C' !! i) as [x'|] eqn:Hx';
        destruct (data C !! i) as [x|] eqn:Hx; simpl.
      * by rewrite !dt_mul_zero_r.
      * apply lookup_ge_None in Hx. apply lookup_lt_Some in Hx'. lia.
      * apply lookup_ge_None in Hx'. apply lookup_lt_Some in Hx. lia.
      * done.
    + by rewrite (Hagree i y Hy Hne).
  - by destruct (data C' !! i), (data C !! i).
Qed.


(** With every target missing the product is the zero tensor. *)
Lemma mask_all `{!ExactDtype A} C Y :
  shape C = shape Y →
  tensor_wf C → tensor_wf Y →
  Forall (λ y, y = dt_neg_one) (data Y) →
  T_mul C (T_neq Y dt_neg_one) = Ok (T_zeros (shape Y)).
Proof.
  intros Hsh HC HY Hall. rewrite T_mul_Ok by done.
  pose proof (wf_same_length C Y HC HY Hsh) as Hlen.
  unfold T_zeros. rewrite Hsh. f_equal. f_equal.
  apply list_eq. intros i. rewrite lookup_zip_with. simpl.
  rewrite list_lookup_fmap.
  destruct (decide (i < length (data Y))) as [Hlt|Hge].
  - rewrite lookup_replicate_2 by (unfold tensor_wf in HY; lia).
    destruct (lookup_lt_is_Some_2 (data Y) i Hlt) as [y Hy].
    destruct (lookup_lt_is_Some_2 (data C) i ltac:(lia)) as [x Hx].
    rewrite Hx, Hy. simpl.
    rewrite Forall_lookup in Hall. rewrite (Hall i y Hy).
    rewrite bool_decide_false by (intros ?; done). simpl.
    by rewrite dt_mul_zero_r.
  - rewrite (lookup_ge_None_2 (data C)) by lia. simpl.
    symmetry. apply lookup_replicate_None.
    unfold tensor_wf in HY. lia.
Qed.
End masking.

(** ** Running the monad *)

Section running.
Context {B : Backend}.
Implicit Types s : State.

Lemma bind_Ok {R1 R2} (c : M R1) (k : R1 → M R2) s s' r :
  c s = (s', Ok r) → (c ≫= k) s = k r s'.
Proof. intros Hc. unfold mbind, M_bind, bind. by rewrite Hc. Qed.

Lemma bind_Raise {R1 R2} (c : M R1) (k : R1 → M R2) s s' e :
  c s = (s', Raise e) → (c ≫= k) s = (s', Raise e).
Proof. intros Hc. unfold mbind, M_bind, bind. by rewrite Hc. Qed.

Lemma invoke_run {R} (c : Call) (f : Eff R) s w r :
  f (world s) = (w, r) →
  invoke c f s = (mkState (self_dict s) w (calls s ++ [c]), r).
Proof. intros Hf. unfold invoke. by rewrite Hf. Qed.

(** *** The cost object is not written to *)

Lemma preserves_self_bind {R1 R2} (c : M R1) (k : R1 → M R2) :
  preserves_self c → (∀ r, preserves_self (k r)) →
  preserves_self (c ≫= k).
Proof.
  intros Hc Hk s. unfold mbind, M_bind, bind.
  specialize (Hc s). destruct (c s) as [s' [r|e]]; simpl in *.
  - by rewrite Hk.
  - done.
Qed.

Lemma preserves_self_mret {R} (r : R) : preserves_self (mret r).
Proof. intros s. reflexivity. Qed.

Lemma preserves_self_raise {R} e : preserves_self (raise (R := R) e).
Proof. intros s. reflexivity. Qed.

Lemma preserves_self_invoke {R} c (f : Eff R) : preserves_self (invoke c f).
Proof. intros s. unfold invoke. by destruct (f (world s)). Qed.

Lemma preserves_self_lift {R} (r : result R) : preserves_self (lift_result r).
Proof. intros s. reflexivity. Qed.

Lemma preserves_self_getattr name : preserves_self (getattr name).
Proof. intros s. unfold getattr. by destruct (self_dict s !! name). Qed.

Lemma preserves_self_validate space data :
  preserves_self (validate space data).
Proof.
  unfold validate.
  destruct (composite_accepts space data);
    [apply preserves_self_mret | apply preserves_self_raise].
Qed.

Lemma preserves_self_unpack data : preserves_self (unpack_pair data).
Proof.
  unfold unpack_pair.
  destruct data as [|X [|Y [|Z data]]];
    first [apply preserves_self_mret | apply preserves_self_raise].
Qed.

Lemma preserves_self_last_layer model : preserves_self (last_layer model).
Proof.
  unfold last_layer.
  destruct (list.last (layers model));
    [apply preserves_self_mret | apply preserves_self_raise].
Qed.

Lemma preserves_self_as_kwargs a : preserves_self (as_kwargs a).
Proof.
  destruct a as [|[kwargs|]];
    first [apply preserves_self_mret | apply preserves_self_raise].
Qed.

Lemma preserves_self_get_data_specs model :
  preserves_self (get_data_specs model).
Proof.
  unfold get_data_specs.
  repeat (apply preserves_self_bind; [apply preserves_self_invoke|intros ?]).
  apply preserves_self_mret.
Qed.

Lemma preserves_self_expr model data : preserves_self (expr model data).
Proof.
  unfold expr.
  apply preserves_self_bind; [apply preserves_self_get_data_specs|].
  intros [space sources].
  apply preserves_self_bind; [apply preserves_self_validate|intros _].
  apply preserves_self_bind; [apply preserves_self_unpack|intros [X Y]].
  apply preserves_self_bind; [apply preserves_self_getattr|intros args].
  apply preserves_self_bind.
  { destruct (truthy args); [|apply preserves_self_invoke].
    apply preserves_self_bind; [|intros ?; apply preserves_self_invoke].
    apply preserves_self_bind;
      [apply preserves_self_getattr | apply preserves_self_as_kwargs]. }
  intros Y_hat.
  apply preserves_self_bind; [apply preserves_self_last_layer|intros layer].
  apply preserves_self_bind; [apply preserves_self_invoke|intros C].
  apply preserves_self_bind; [apply preserves_self_lift|intros Cm].
  apply preserves_self_invoke.
Qed.

(** *** Construction *)

Lemma construct_run dropout_args w log :
  construct dropout_args w log =
    (mkState (cost_dict dropout_args) w log, Ok ()).
Proof.
  reflexivity.
Qed.
(** *** [get_data_specs] *)

Lemma get_data_specs_Ok model s w1 w2 w3 w4 input_space output_space
    input_source target_source :
  get_input_space model (world s) = (w1, Ok input_space) →
  get_output_space model w1 = (w2, Ok output_space) →
  get_input_source model w2 = (w3, Ok input_source) →
  get_target_source model w3 = (w4, Ok target_source) →
  get_data_specs model s =
    (mkState (self_dict s) w4 (calls s ++ accessor_calls),
     Ok (mkCompositeSpace [input_space; output_space],
         (input_source, target_source))).
Proof.
  intros H1 H2 H3 H4. unfold get_data_specs.
  erewrite bind_Ok by (apply invoke_run; exact H1).
  erewrite bind_Ok by (apply invoke_run; exact H2).
  erewrite bind_Ok by (apply invoke_run; exact H3).
  erewrite bind_Ok by (apply invoke_run; exact H4).
  simpl. unfold mret, M_ret, ret, accessor_calls.
  by rewrite <- !app_assoc.
Qed.

Lemma get_data_specs_inv model s s1 space sources :
  get_data_specs model s = (s1, Ok (space, sources)) →
  ∃ w1 w2 w3 input_space output_space,
    get_input_space model (world s) = (w1, Ok input_space) ∧
    get_output_space model w1 = (w2, Ok output_space) ∧
    get_input_source model w2 = (w3, Ok sources.1) ∧
    get_target_source model w3 = (world s1, Ok sources.2) ∧
    space = mkCompositeSpace [input_space; output_space] ∧
    self_dict s1 = self_dict s ∧
    calls s1 = calls s ++ accessor_calls.
Proof.
  unfold get_data_specs, mbind, M_bind, bind, invoke, mret, M_ret, ret.
  destruct (get_input_space model (world s)) as [w1 [si|e]] eqn:H1;
    simpl; [|done].
  destruct (get_output_space model w1) as [w2 [so|e]] eqn:H2; simpl; [|done].
  destruct (get_input_source model w2) as [w3 [a|e]] eqn:H3; simpl; [|done].
  destruct (get_target_source model w3) as [w4 [b|e]] eqn:H4; simpl; [|done].
  intros [= <- <- <-]. exists w1, w2, w3, si, so. simpl.
  repeat split; try done. unfold accessor_calls. by rewrite <- !app_assoc.
Qed.

(** An exception of [get_data_specs] is an exception of an accessor. *)
Lemma get_data_specs_Raise model s s1 e :
  get_data_specs model s = (s1, Raise e) →
  ∃ w, (get_input_space model w).2 = Raise e ∨
       (get_output_space model w).2 = Raise e ∨
       (get_input_source model w).2 = Raise e ∨
       (get_target_source model w).2 = Raise e.
Proof.
  unfold get_data_specs, mbind, M_bind, bind, invoke, mret, M_ret, ret.
  destruct (get_input_space model (world s)) as [w1 [si|e1]] eqn:H1; simpl.
  2:{ intros [= <- <-]. exists (world s). left. by rewrite H1. }
  destruct (get_output_space model w1) as [w2 [so|e2]] eqn:H2; simpl.
  2:{ intros [= <- <-]. exists w1. right; left. by rewrite H2. }
  destruct (get_input_source model w2) as [w3 [a|e3]] eqn:H3; simpl.
  2:{ intros [= <- <-]. exists w2. right; right; left. by rewrite H3. }
  destruct (get_target_source model w3) as [w4 [b|e4]] eqn:H4; simpl.
  - done.
  - intros [= <- <-]. exists w3. right; right; right. by rewrite H4.
Qed.

(** Accessors that leave the world alone make [get_data_specs] do so. *)
Lemma get_data_specs_world model s :
  (∀ w, (get_input_space model w).1 = w) →
  (∀ w, (get_output_space model w).1 = w) →
  (∀ w, (get_input_source model w).1 = w) →
  (∀ w, (get_target_source model w).1 = w) →
  world (get_data_specs model s).1 = world s.
Proof.
  intros P1 P2 P3 P4.
  unfold get_data_specs, mbind, M_bind, bind, invoke, mret, M_ret, ret.
  specialize (P1 (world s)).
  destruct (get_input_space model (world s)) as [w1 [si|e1]];
    simpl in *; subst w1; [|done].
  specialize (P2 (world s)).
  destruct (get_output_space model (world s)) as [w2 [so|e2]];
    simpl in *; subst w2; [|done].
  specialize (P3 (world s)).
  destruct (get_input_source model (world s)) as [w3 [a|e3]];
    simpl in *; subst w3; [|done].
  specialize (P4 (world s)).
  destruct (get_target_source model (world s)) as [w4 [b|e4]];
    simpl in *; subst w4; done.
Qed.

(** *** [expr], up to the forward pass *)

Lemma composite_accepts_pair space data :
  length (components space) = 2 →
  composite_accepts space data = true →
  ∃ X Y, data = [X; Y].
Proof.
  unfold composite_accepts. intros Hlen Hacc.
  apply andb_prop in Hacc as [Hl _]. apply bool_decide_eq_true in Hl.
  rewrite Hlen in Hl.
  destruct data as [|X [|Y [|Z data]]]; simpl in Hl; try lia. eauto.
Qed.

Lemma getattr_dropout_args s dropout_args :
  self_dict s = cost_dict dropout_args →
  getattr "dropout_args" s = (s, Ok (AttrArgs dropout_args)).
Proof. intros Hs. unfold getattr. rewrite Hs. reflexivity. Qed.

Lemma expr_valid model dropout_args s s1 space sources X Y :
  self_dict s = cost_dict dropout_args →
  get_data_specs model s = (s1, Ok (space, sources)) →
  composite_accepts space [X; Y] = true →
  expr model [X; Y] s =
    (Y_hat ← invoke (selected_call dropout_args X)
                    (selected_forward model dropout_args X);
     layer ← last_layer model;
     C ← invoke (CallCostMatrix Y Y_hat) (cost_matrix layer Y Y_hat);
     Cm ← lift_result (T_mul C (T_neq Y dt_neg_one));
     invoke (CallCostFromCostMatrix Cm) (cost_from_cost_matrix model Cm)) s1.
Proof.
  intros Hself Hspecs Hvalid.
  assert (self_dict s1 = cost_dict dropout_args) as Hself1.
  { rewrite <- Hself. pose proof (preserves_self_get_data_specs model s) as P.
    by rewrite Hspecs in P. }
  unfold expr. erewrite bind_Ok by exact Hspecs. simpl.
  unfold validate. rewrite Hvalid.
  erewrite (bind_Ok (mret ())) by reflexivity.
  erewrite (bind_Ok (unpack_pair [X; Y])) by reflexivity. simpl.
  erewrite (bind_Ok (getattr "dropout_args"))
    by (apply getattr_dropout_args; exact Hself1).
  unfold selected_call, selected_forward.
  destruct dropout_args as [kwargs|]; simpl; [|reflexivity].
  destruct (decide (kwargs = ∅)) as [->|Hne].
  - rewrite bool_decide_false by (intros ?; done). reflexivity.
  - rewrite bool_decide_true by done.
    unfold mbind at 1, M_bind at 1, bind at 1.
    unfold mbind at 1, M_bind at 1, bind at 1.
    unfold mbind at 1, M_bind at 1, bind at 1.
    rewrite (getattr_dropout_args _ _ Hself1). simpl.
    reflexivity.
Qed.
End running.

(** ** [expr] on a batch that validates

    The cost was constructed with [dropout_args]; the accessors of the model
    returned, in the state [s1], the data specification [(space, sources)];
    the batch [(X, Y)] matches [space]. *)

Section valid_batch.
Context {B : Backend} (model : Model).
Context (dropout_args : option (gmap string Value)).
Context (s s1 : State) (space : CompositeSpace) (sources : string * string).
Context (X Y : Tensor scalar).
Hypothesis Hself : self_dict s = cost_dict dropout_args.
Hypothesis Hspecs : get_data_specs model s = (s1, Ok (space, sources)).
Hypothesis Hvalid : composite_accepts space [X; Y] = true.

Lemma valid_self_dict : self_dict s1 = self_dict s.
Proof.
  pose proof (preserves_self_get_data_specs model s) as P.
  by rewrite Hspecs in P.
Qed.

Lemma valid_calls : calls s1 = calls s ++ accessor_calls.
Proof.
  destruct (get_data_specs_inv _ _ _ _ _ Hspecs)
    as (?&?&?&?&?&?&?&?&?&?&?&?). done.
Qed.

Lemma expr_forward_Raise w2 e :
  selected_forward model dropout_args X (world s1) = (w2, Raise e) →
  expr model [X; Y] s =
    (mkState (self_dict s) w2 (calls s1 ++ [selected_call dropout_args X]),
     Raise e).
Proof.
  intros Hfwd. rewrite (expr_valid _ _ _ _ _ _ _ _ Hself Hspecs Hvalid).
  erewrite bind_Raise by (apply invoke_run; exact Hfwd).
  by rewrite valid_self_dict.
Qed.

Lemma expr_no_layer w2 Y_hat :
  selected_forward model dropout_args X (world s1) = (w2, Ok Y_hat) →
  list.last (layers model) = None →
  expr model [X; Y] s =
    (mkState (self_dict s) w2 (calls s1 ++ [selected_call dropout_args X]),
     Raise IndexError).
Proof.
  intros Hfwd Hlast. rewrite (expr_valid _ _ _ _ _ _ _ _ Hself Hspecs Hvalid).
  erewrite bind_Ok by (apply invoke_run; exact Hfwd).
  unfold last_layer. rewrite Hlast.
  erewrite bind_Raise by reflexivity.
  by rewrite valid_self_dict.
Qed.

Lemma expr_cost_matrix_Raise w2 Y_hat layer w3 e :
  selected_forward model dropout_args X (world s1) = (w2, Ok Y_hat) →
  list.last (layers model) = Some layer →
  cost_matrix layer Y Y_hat w2 = (w3, Raise e) →
  expr model [X; Y] s =
    (mkState (self_dict s) w3
       (calls s1 ++ [selected_call dropout_args X; CallCostMatrix Y Y_hat]),
     Raise e).
Proof.
  intros Hfwd Hlast Hcost.
  rewrite (expr_valid _ _ _ _ _ _ _ _ Hself Hspecs Hvalid).
  erewrite bind_Ok by (apply invoke_run; exact Hfwd).
  unfold last_layer. rewrite Hlast.
  erewrite (bind_Ok (mret layer)) by reflexivity.
  erewrite bind_Raise by (apply invoke_run; exact Hcost).
  simpl. by rewrite valid_self_dict, <- app_assoc.
Qed.


Lemma expr_reduces w2 Y_hat layer w3 C Cm :
  selected_forward model dropout_args X (world s1) = (w2, Ok Y_hat) →
  list.last (layers model) = Some layer →
  cost_matrix layer Y Y_hat w2 = (w3, Ok C) →
  T_mul C (T_neq Y dt_neg_one) = Ok Cm →
  expr model [X; Y] s =
    invoke (CallCostFromCostMatrix Cm) (cost_from_cost_matrix model Cm)
      (mkState (self_dict s) w3
         (calls s1 ++ [selected_call dropout_args X; CallCostMatrix Y Y_hat])).
Proof.
  intros Hfwd Hlast Hcost Hmul.
  rewrite (expr_valid _ _ _ _ _ _ _ _ Hself Hspecs Hvalid).
  erewrite bind_Ok by (apply invoke_run; exact Hfwd).
  unfold last_layer. rewrite Hlast.
  erewrite (bind_Ok (mret layer)) by reflexivity.
  erewrite bind_Ok by (apply invoke_run; exact Hcost).
  rewrite Hmul. erewrite (bind_Ok (lift_result (Ok Cm))) by reflexivity.
  simpl. by rewrite valid_self_dict, <- app_assoc.
Qed.

Lemma expr_reduces_result w2 Y_hat layer w3 C Cm :
  selected_forward model dropout_args X (world s1) = (w2, Ok Y_hat) →
  list.last (layers model) = Some layer →
  cost_matrix layer Y Y_hat w2 = (w3, Ok C) →
  T_mul C (T_neq Y dt_neg_one) = Ok Cm →
  (expr model [X; Y] s).2 = (cost_from_cost_matrix model Cm w3).2 ∧
  world (expr model [X; Y] s).1 = (cost_from_cost_matrix model Cm w3).1.
Proof.
  intros Hfwd Hlast Hcost Hmul.
  rewrite (expr_reduces _ _ _ _ _ _ Hfwd Hlast Hcost Hmul).
  unfold invoke. simpl. by destruct (cost_from_cost_matrix model Cm w3).
Qed.

End valid_batch.

(** ** Two runs of a deterministic model *)

Section determinism.
Context {B : Backend}.

Lemma repeatable_bind {R1 R2} (c : M R1) (k : R1 → M R2) :
  preserves_self c → repeatable c → (∀ r, repeatable (k r)) →
  repeatable (c ≫= k).
Proof.
  intros Hp Hc Hk s s' Hs. unfold mbind, M_bind, bind.
  pose proof (Hc s s' Hs) as Hr.
  pose proof (Hp s) as Hps. pose proof (Hp s') as Hps'.
  destruct (c s) as [t [r|e]], (c s') as [t' [r'|e']]; simpl in *.
  - injection Hr as <-. apply Hk. congruence.
  - discriminate.
  - discriminate.
  - by injection Hr as <-.
Qed.

Lemma repeatable_mret_bind {R1 R2} (r : R1) (k : R1 → M R2) :
  repeatable (k r) → repeatable (mret r ≫= k).
Proof. intros Hk s s' Hs. exact (Hk s s' Hs). Qed.

Lemma repeatable_const {R} (r : result R) : repeatable (lift_result r).
Proof. intros s s' _. reflexivity. Qed.

Lemma repeatable_invoke {R} c (f : Eff R) :
  world_independent f → repeatable (invoke c f).
Proof.
  intros Hf s s' _. unfold invoke. specialize (Hf (world s) (world s')).
  by destruct (f (world s)), (f (world s')).
Qed.

Lemma repeatable_getattr name : repeatable (getattr name).
Proof.
  intros s s' Hs. unfold getattr. rewrite Hs.
  by destruct (self_dict s' !! name).
Qed.

Lemma repeatable_get_data_specs model :
  deterministic model → repeatable (get_data_specs model).
Proof.
  intros [D1 D2 D3 D4 _ _ _ _]. unfold get_data_specs.
  repeat (apply repeatable_bind;
          [apply preserves_self_invoke
          |apply repeatable_invoke; assumption
          |intros ?]).
  apply (repeatable_const (Ok _)).
Qed.

Lemma repeatable_expr model data :
  deterministic model → repeatable (expr model data).
Proof.
  intros Hdet. pose proof Hdet as [_ _ _ _ D5 D6 D7 D8]. unfold expr.
  apply repeatable_bind;
    [apply preserves_self_get_data_specs
    |by apply repeatable_get_data_specs|].
  intros [space sources].
  apply repeatable_bind; [apply preserves_self_validate| |intros _].
  { unfold validate. destruct (composite_accepts space data);
      [apply (repeatable_const (Ok _)) | apply (repeatable_const (Raise _))]. }
  apply repeatable_bind; [apply preserves_self_unpack| |intros [X Y]].
  { unfold unpack_pair. destruct data as [|X [|Y [|Z data]]];
      first [apply (repeatable_const (Ok _))
            |apply (repeatable_const (Raise _))]. }
  apply repeatable_bind;
    [apply preserves_self_getattr|apply repeatable_getattr|intros args].
  apply repeatable_bind.
  { destruct (truthy args); [|apply preserves_self_invoke].
    apply preserves_self_bind; [|intros ?; apply preserves_self_invoke].
    apply preserves_self_bind;
      [apply preserves_self_getattr | apply preserves_self_as_kwargs]. }
  { destruct (truthy args); [|by apply repeatable_invoke].
    apply repeatable_bind.
    - apply preserves_self_bind;
        [apply preserves_self_getattr | apply preserves_self_as_kwargs].
    - apply repeatable_bind;
        [apply preserves_self_getattr|apply repeatable_getattr|].
      intros [|[kwargs|]];
        first [apply (repeatable_const (Ok _))
              |apply (repeatable_const (Raise _))].
    - intros kwargs. by apply repeatable_invoke. }
  intros Y_hat. unfold last_layer.
  destruct (list.last (layers model)) as [layer|] eqn:Hlast.
  2:{ intros s s' _. reflexivity. }
  apply repeatable_mret_bind.
  apply repeatable_bind;
    [apply preserves_self_invoke
    |apply repeatable_invoke; by apply D7
    |intros C].
  apply repeatable_bind;
    [apply preserves_self_lift|apply repeatable_const|intros Cm].
  by apply repeatable_invoke.
Qed.
End determinism.

(** ** The properties of [expr] and [get_data_specs] *)

(** Over a dtype with exact arithmetic.  On a batch [(X, Y)] that validates
    against the data specification of the model, with a forward pass that
    returns [Y_hat] and a last layer that returns a cost matrix [C] of the
    shape of [Y], [expr] returns what [cost_from_cost_matrix] returns on the
    elementwise product [Cm] of [C] with the mask [Y != -1].  An entry of
    [Cm] where [Y] is [-1] is zero, any other entry is the entry of [C], and
    [Cm] is the same whatever the raw costs at the positions where [Y] is
    [-1].  The dtype float64 is not of this kind: see the evaluation over
    float64 below. *)
Theorem expr_masks_missing_targets {B : Backend} `{!ExactDtype scalar}
    (model : Model) dropout_args s s1 space sources X Y Y_hat layer C w2 w3 :
  self_dict s = cost_dict dropout_args →
  get_data_specs model s = (s1, Ok (space, sources)) →
  composite_accepts space [X; Y] = true →
  selected_forward model dropout_args X (world s1) = (w2, Ok Y_hat) →
  list.last (layers model) = Some layer →
  cost_matrix layer Y Y_hat w2 = (w3, Ok C) →
  tensor_wf Y → tensor_wf C → shape C = shape Y →
  ∃ Cm,
    T_mul C (T_neq Y dt_neg_one) = Ok Cm ∧
    (expr model [X; Y] s).2 = (cost_from_cost_matrix model Cm w3).2 ∧
    world (expr model [X; Y] s).1 = (cost_from_cost_matrix model Cm w3).1 ∧
    (∀ i, data Y !! i = Some dt_neg_one → data Cm !! i = Some dt_zero) ∧
    (∀ i y, data Y !! i = Some y → y ≠ dt_neg_one →
            data Cm !! i = data C !! i) ∧
    (∀ C', shape C' = shape C → length (data C') = length (data C) →
           (∀ i y, data Y !! i = Some y → y ≠ dt_neg_one →
                   data C' !! i = data C !! i) →
           T_mul C' (T_neq Y dt_neg_one) = Ok Cm).
Proof.
  intros Hself Hspecs Hvalid Hfwd Hlast Hcost HwfY HwfC Hsh.
  pose proof (T_mul_Ok C Y dt_neg_one Hsh) as Hmul.
  eexists. split; [exact Hmul|].
  pose proof (wf_same_length C Y HwfC HwfY Hsh) as Hlen.
  destruct (expr_reduces_result model dropout_args s s1 space sources X Y
              Hself Hspecs Hvalid w2 Y_hat layer w3 C _ Hfwd Hlast Hcost Hmul)
    as [Hres Hworld].
  split; [exact Hres|]. split; [exact Hworld|].
  split; [|split].
  - intros i Hy. exact (masked_missing C Y _ i Hmul Hlen Hy).
  - intros i y Hy Hne. exact (masked_present C Y _ i y Hmul Hy Hne).
  - intros C' Hsh' Hlen' Hagree.
    exact (masked_independent C C' Y _ Hmul Hsh' Hlen' Hagree).
Qed.

Lemma expr_masks_missing_targets_witness :
  ∃ Cm : Tensor Z,
    T_mul raw0_Z (T_neq Y0_Z (-1)%Z) = Ok Cm ∧
    (expr model0_Z [X0; Y0_Z] (fresh_Z None 0)).2 =
      (cost_from_cost_matrix model0_Z Cm 1).2 ∧
    world (expr model0_Z [X0; Y0_Z] (fresh_Z None 0)).1 =
      (cost_from_cost_matrix model0_Z Cm 1).1 ∧
    (∀ i, data Y0_Z !! i = Some (-1)%Z → data Cm !! i = Some 0%Z) ∧
    (∀ i y, data Y0_Z !! i = Some y → y ≠ (-1)%Z →
            data Cm !! i = data raw0_Z !! i) ∧
    (∀ C', shape C' = shape raw0_Z →
           length (data C') = length (data raw0_Z) →
           (∀ i y, data Y0_Z !! i = Some y → y ≠ (-1)%Z →
                   data C' !! i = data raw0_Z !! i) →
           T_mul C' (T_neq Y0_Z (-1)%Z) = Ok Cm).
Proof.
  apply (expr_masks_missing_targets (B := stub_backend Z)
           (ExactDtype0 := Z_exact) model0_Z None (fresh_Z None 0)
           (after_specs None) (mkCompositeSpace (B := stub_backend Z) [3; 2])
           ("features", "targets") X0 Y0_Z X0 (stub_layer raw0_Z) raw0_Z 1 1);
    reflexivity.
Defined.

(** An entry of the product at a missing target is the raw cost times
    zero, in any dtype. *)
Lemma masked_missing_product {A : Type} `{Dtype A} (C Y Cm : Tensor A) i x :
  T_mul C (T_neq Y dt_neg_one) = Ok Cm →
  data Y !! i = Some dt_neg_one →
  data C !! i = Some x →
  data Cm !! i = Some (dt_mul x dt_zero).
Proof.
  intros Hmul Hy Hx. rewrite (T_mul_lookup _ _ _ _ _ Hmul), Hy, Hx. simpl.
  by rewrite bool_decide_false by (intros ?; done).
Qed.

(** In float64 the product of a zero or of a finite number with zero is a
    zero with the sign of that number; the product of an infinity or of a NaN
    with zero is a NaN. *)
Lemma F64_mul_zero_r (x : spec_float) :
  F64_mul x F64_zero =
    match x with
    | S754_zero sign | S754_finite sign _ _ => S754_zero sign
    | S754_infinity _ | S754_nan => S754_nan
    end.
Proof. by destruct x as [[]|[]| |[] m e]. Qed.

Lemma F64_not_exact : ¬ ExactDtype spec_float.
Proof.
  intros [_ Hzero]. specialize (Hzero F64_inf). discriminate Hzero.
Qed.

(** C1.  With the dtype float64 the product with the mask does not set to
    zero a raw cost that is not finite.  The batch validates, its targets are
    [[1, -1], [-1, 2]], and the last layer returns the raw costs
    [[0.5, inf], [nan, 2.0]]: the matrix [expr] hands to
    [cost_from_cost_matrix] has a NaN at each of the two missing targets,
    and with a reduction that sums [expr] returns NaN, where the sum of the
    matrix with zeros at the missing targets is 2.5. *)
Theorem expr_nonfinite_cost_at_missing_target :
  composite_accepts (B := stub_backend spec_float)
    (mkCompositeSpace (B := stub_backend spec_float) [3; 2]) [X0; Y0_F]
    = true ∧
  data Y0_F !! 1 = Some dt_neg_one ∧
  data Y0_F !! 2 = Some dt_neg_one ∧
  T_mul raw0_F (T_neq Y0_F dt_neg_one) =
    Ok (mkTensor [2; 2] [F64_half; F64_nan; F64_nan; F64_two]) ∧
  list.last (calls (expr model0_F [X0; Y0_F] (fresh_F None 0)).1) =
    Some (CallCostFromCostMatrix (B := stub_backend spec_float)
            (mkTensor [2; 2] [F64_half; F64_nan; F64_nan; F64_two])) ∧
  (expr model0_F [X0; Y0_F] (fresh_F None 0)).2 = Ok F64_nan ∧
  (cost_from_cost_matrix model0_F
     (mkTensor [2; 2] [F64_half; F64_zero; F64_zero; F64_two]) 1).2 =
    Ok (S754_finite false 5629499534213120 (-51)).
Proof. repeat split; vm_compute; reflexivity. Qed.

(** The scenario of the specification: the masked matrix is
    [[0.5, 0], [0, 0.2]] and a reduction that sums returns 0.7. *)
Example scenario_Qc :
  T_mul raw0_Qc (T_neq Y0_Qc dt_neg_one) =
    Ok (mkTensor [2; 2] (Q2Qc <$> [5 # 10; 0; 0; 2 # 10]%Q)) ∧
  (expr model0_Qc [X0; Y0_Qc] (fresh_Qc None 0)).2 = Ok (Q2Qc (7 # 10)).
Proof. split; apply (bool_decide_unpack _); vm_compute; exact I. Qed.

Example scenario_Z :
  T_mul raw0_Z (T_neq Y0_Z dt_neg_one) = Ok (mkTensor [2; 2] [5; 0; 0; 2]%Z) ∧
  (expr model0_Z [X0; Y0_Z] (fresh_Z None 0)).2 = Ok 7%Z.
Proof. split; reflexivity. Qed.



(** Over a dtype with exact arithmetic.  When every entry of the targets is
    [-1], the product with the mask is the zero tensor of the shape of the
    targets, and [expr] returns what [cost_from_cost_matrix] returns on it.
    The dtype float64 is not of this kind: see the evaluation over float64
    below. *)
Theorem expr_all_targets_missing {B : Backend} `{!ExactDtype scalar}
    (model : Model) dropout_args s s1 space sources X Y Y_hat layer C w2 w3 :
  self_dict s = cost_dict dropout_args →
  get_data_specs model s = (s1, Ok (space, sources)) →
  composite_accepts space [X; Y] = true →
  selected_forward model dropout_args X (world s1) = (w2, Ok Y_hat) →
  list.last (layers model) = Some layer →
  cost_matrix layer Y Y_hat w2 = (w3, Ok C) →
  tensor_wf Y → tensor_wf C → shape C = shape Y →
  Forall (λ y, y = dt_neg_one) (data Y) →
  T_mul C (T_neq Y dt_neg_one) = Ok (T_zeros (shape Y)) ∧
  (expr model [X; Y] s).2 =
    (cost_from_cost_matrix model (T_zeros (shape Y)) w3).2 ∧
  world (expr model [X; Y] s).1 =
    (cost_from_cost_matrix model (T_zeros (shape Y)) w3).1.
Proof.
  intros Hself Hspecs Hvalid Hfwd Hlast Hcost HwfY HwfC Hsh Hall.
  pose proof (mask_all C Y Hsh HwfC HwfY Hall) as Hmul.
  split; [exact Hmul|].
  exact (expr_reduces_result model dropout_args s s1 space sources X Y
           Hself Hspecs Hvalid w2 Y_hat layer w3 C _ Hfwd Hlast Hcost Hmul).
Qed.

Lemma expr_all_targets_missing_witness :
  T_mul raw0_Z (T_neq Y_none_Z (-1)%Z) = Ok (T_zeros [2; 2]) ∧
  (expr model0_Z [X0; Y_none_Z] (fresh_Z None 0)).2 =
    (cost_from_cost_matrix model0_Z (T_zeros [2; 2]) 1).2 ∧
  world (expr model0_Z [X0; Y_none_Z] (fresh_Z None 0)).1 =
    (cost_from_cost_matrix model0_Z (T_zeros [2; 2]) 1).1.
Proof.
  apply (expr_all_targets_missing (B := stub_backend Z)
           (ExactDtype0 := Z_exact) model0_Z None (fresh_Z None 0)
           (after_specs None) (mkCompositeSpace (B := stub_backend Z) [3; 2])
           ("features", "targets") X0 Y_none_Z X0 (stub_layer raw0_Z)
           raw0_Z 1 1);
    try reflexivity.
  repeat constructor.
Defined.

(** C5.  With the dtype float64 and every target missing, the matrix handed
    to [cost_from_cost_matrix] is not the zero matrix when a raw cost is not
    finite.  The batch validates, every target is [-1], and the last layer
    returns the raw costs [[0.5, inf], [nan, 2.0]]: the product with the mask
    is [[0, nan], [nan, 0]], and with a reduction that sums [expr] returns
    NaN, where the reduction of the zero matrix is 0. *)
Theorem expr_all_missing_nonfinite_cost :
  composite_accepts (B := stub_backend spec_float)
    (mkCompositeSpace (B := stub_backend spec_float) [3; 2]) [X0; Y_none_F]
    = true ∧
  Forall (λ y, y = dt_neg_one) (data Y_none_F) ∧
  T_mul raw0_F (T_neq Y_none_F dt_neg_one) =
    Ok (mkTensor [2; 2] [F64_zero; F64_nan; F64_nan; F64_zero]) ∧
  mkTensor [2; 2] [F64_zero; F64_nan; F64_nan; F64_zero] ≠
    T_zeros (shape Y_none_F) ∧
  list.last (calls (expr model0_F [X0; Y_none_F] (fresh_F None 0)).1) =
    Some (CallCostFromCostMatrix (B := stub_backend spec_float)
            (mkTensor [2; 2] [F64_zero; F64_nan; F64_nan; F64_zero])) ∧
  (expr model0_F [X0; Y_none_F] (fresh_F None 0)).2 = Ok F64_nan ∧
  (cost_from_cost_matrix model0_F (T_zeros (shape Y_none_F)) 1).2 =
    Ok F64_zero.
Proof.
  split; [reflexivity|]. split; [by repeat constructor|].
  split; [reflexivity|]. split; [discriminate|].
  repeat split; vm_compute; reflexivity.
Qed.






(** C3, as amended.  When the tuple of tensors of a batch does not match
    the composite space the model declares, whatever sources the batch is
    labelled with, [expr] raises [DataSpecMismatch] in the state the
    accessors left: the calls made are those of the accessors, and the
    number of forward passes run has not changed. *)
Theorem expr_validates_before_forward {B : Backend} (model : Model)
    (b : LabelledBatch) s s1 space sources :
  get_data_specs model s = (s1, Ok (space, sources)) →
  composite_accepts space (batch_data b) = false →
  expr model (batch_data b) s = (s1, Raise DataSpecMismatch) ∧
  calls s1 = calls s ++ accessor_calls ∧
  List.filter is_forward (calls s1) = List.filter is_forward (calls s).
Proof.
  intros Hspecs Hbad.
  assert (calls s1 = calls s ++ accessor_calls) as Hcalls.
  { destruct (get_data_specs_inv _ _ _ _ _ Hspecs)
      as (?&?&?&?&?&?&?&?&?&?&?&?). done. }
  split; [|split; [exact Hcalls|]].
  - unfold expr. erewrite bind_Ok by exact Hspecs. simpl.
    unfold validate. rewrite Hbad. reflexivity.
  - rewrite Hcalls, List.filter_app. simpl. apply app_nil_r.
Qed.

Lemma expr_validates_before_forward_witness :
  expr model0_Z bad_batch_Z (fresh_Z None 0) =
    (after_specs None, Raise DataSpecMismatch) ∧
  calls (after_specs None) = calls (fresh_Z None 0) ++ accessor_calls ∧
  List.filter is_forward (calls (after_specs None)) =
    List.filter is_forward (calls (fresh_Z None 0)).
Proof.
  apply (expr_validates_before_forward (B := stub_backend Z) model0_Z
           (mkLabelledBatch (B := stub_backend Z) ("features", "targets")
              bad_batch_Z)
           (fresh_Z None 0) (after_specs None)
           (mkCompositeSpace (B := stub_backend Z) [3; 2])
           ("features", "targets"));
    reflexivity.
Defined.

(** C3, as stated, fails for a batch whose sources do not match: the model
    declares the sources [("features", "targets")], the batch carries the
    targets first and the features second, both of the width the model
    declares, and [expr] runs the forward pass and returns. *)
Lemma source_mismatch_counterexample :
  (get_data_specs model1_Z (fresh_Z None 0)).2 =
    Ok (mkCompositeSpace (B := stub_backend Z) [2; 2],
        ("features", "targets")) ∧
  batch_sources swapped_batch ≠ ("features", "targets") ∧
  (expr model1_Z (batch_data swapped_batch) (fresh_Z None 0)).2 = Ok 17%Z ∧
  List.filter is_forward
    (calls (expr model1_Z (batch_data swapped_batch) (fresh_Z None 0)).1) =
    [CallFprop (B := stub_backend Z) Y0_Z].
Proof. repeat split; try reflexivity. discriminate. Qed.

(** C6.  [get_data_specs] returns the composite space of the input space
    and the output space of the model, in this order, with the pair of its
    input source and target source; an exception it raises was raised by an
    accessor; it does not write to the cost object; it changes the world
    only as far as the accessors do; and its result depends on the state
    through the world of the model alone. *)
Theorem get_data_specs_spec {B : Backend} (model : Model) :
  (∀ s w1 w2 w3 w4 input_space output_space input_source target_source,
     get_input_space model (world s) = (w1, Ok input_space) →
     get_output_space model w1 = (w2, Ok output_space) →
     get_input_source model w2 = (w3, Ok input_source) →
     get_target_source model w3 = (w4, Ok target_source) →
     get_data_specs model s =
       (mkState (self_dict s) w4 (calls s ++ accessor_calls),
        Ok (mkCompositeSpace [input_space; output_space],
            (input_source, target_source)))) ∧
  (∀ s s1 e,
     get_data_specs model s = (s1, Raise e) →
     ∃ w, (get_input_space model w).2 = Raise e ∨
          (get_output_space model w).2 = Raise e ∨
          (get_input_source model w).2 = Raise e ∨
          (get_target_source model w).2 = Raise e) ∧
  (∀ s, self_dict (get_data_specs model s).1 = self_dict s) ∧
  ((∀ w, (get_input_space model w).1 = w) →
   (∀ w, (get_output_space model w).1 = w) →
   (∀ w, (get_input_source model w).1 = w) →
   (∀ w, (get_target_source model w).1 = w) →
   ∀ s, world (get_data_specs model s).1 = world s) ∧
  (∀ s s', world s = world s' →
           (get_data_specs model s).2 = (get_data_specs model s').2).
Proof.
  split; [|split; [|split; [|split]]].
  - intros s w1 w2 w3 w4 si so a b. apply get_data_specs_Ok.
  - apply get_data_specs_Raise.
  - apply preserves_self_get_data_specs.
  - intros P1 P2 P3 P4 s. by apply get_data_specs_world.
  - intros s s' Hw.
    unfold get_data_specs, mbind, M_bind, bind, invoke, mret, M_ret, ret.
    rewrite Hw.
    destruct (get_input_space model (world s')) as [w1 [si|e1]];
      simpl; [|done].
    destruct (get_output_space model w1) as [w2 [so|e2]]; simpl; [|done].
    destruct (get_input_source model w2) as [w3 [a|e3]]; simpl; [|done].
    by destruct (get_target_source model w3) as [w4 [b|e4]].
Qed.

Example get_data_specs_stub :
  get_data_specs model0_Z (fresh_Z (Some kwargs0) 0) =
    (after_specs (Some kwargs0),
     Ok (mkCompositeSpace (B := stub_backend Z) [3; 2],
         ("features", "targets"))).
Proof. reflexivity. Qed.

(** C7.  On a batch that validates, an exception raised by the standard
    forward pass, by the dropout forward pass or by [cost_matrix] is the
    exception [expr] raises; the world is the one the failing call left, and
    the failing call is the last call made on the model. *)
Theorem expr_propagates_model_errors {B : Backend} (model : Model)
    dropout_args s s1 space sources X Y :
  self_dict s = cost_dict dropout_args →
  get_data_specs model s = (s1, Ok (space, sources)) →
  composite_accepts space [X; Y] = true →
  (∀ w2 e,
     dropout_args = None ∨ dropout_args = Some ∅ →
     fprop model X (world s1) = (w2, Raise e) →
     expr model [X; Y] s =
       (mkState (self_dict s) w2 (calls s1 ++ [CallFprop X]), Raise e)) ∧
  (∀ kwargs w2 e,
     dropout_args = Some kwargs → kwargs ≠ ∅ →
     dropout_fprop model X kwargs (world s1) = (w2, Raise e) →
     expr model [X; Y] s =
       (mkState (self_dict s) w2 (calls s1 ++ [CallDropoutFprop X kwargs]),
        Raise e)) ∧
  (∀ w2 Y_hat layer w3 e,
     selected_forward model dropout_args X (world s1) = (w2, Ok Y_hat) →
     list.last (layers model) = Some layer →
     cost_matrix layer Y Y_hat w2 = (w3, Raise e) →
     expr model [X; Y] s =
       (mkState (self_dict s) w3
          (calls s1 ++ [selected_call dropout_args X; CallCostMatrix Y Y_hat]),
        Raise e)).
Proof.
  intros Hself Hspecs Hvalid. split; [|split].
  - intros w2 e Hargs Hfwd.
    rewrite (expr_forward_Raise model dropout_args s s1 space sources X Y
               Hself Hspecs Hvalid w2 e).
    + by destruct Hargs as [-> | ->].
    + by destruct Hargs as [-> | ->].
  - intros kwargs w2 e -> Hne Hfwd.
    rewrite (expr_forward_Raise model (Some kwargs) s s1 space sources X Y
               Hself Hspecs Hvalid w2 e).
    + unfold selected_call. by rewrite decide_False.
    + unfold selected_forward. by rewrite decide_False.
  - intros w2 Y_hat layer w3 e.
    apply (expr_cost_matrix_Raise model dropout_args s s1 space sources X Y
             Hself Hspecs Hvalid).
Qed.

Lemma expr_propagates_model_errors_witness :
  (expr (failing_fprop model0_Z) [X0; Y0_Z] (fresh_Z None 0)).2 =
    Raise (ModelError "fprop") ∧
  (expr (failing_fprop model0_Z) [X0; Y0_Z] (fresh_Z (Some kwargs0) 0)).2 =
    Raise (ModelError "dropout_fprop") ∧
  (expr (failing_cost_matrix model0_Z) [X0; Y0_Z] (fresh_Z None 0)).2 =
    Raise (ModelError "cost_matrix").
Proof.
  split; [|split].
  - destruct (expr_propagates_model_errors (B := stub_backend Z)
                (failing_fprop model0_Z) None (fresh_Z None 0)
                (after_specs None)
                (mkCompositeSpace (B := stub_backend Z) [3; 2])
                ("features", "targets") X0 Y0_Z eq_refl eq_refl eq_refl)
      as (Hfprop & _ & _).
    exact (f_equal snd
             (Hfprop 1 (ModelError "fprop") (or_introl eq_refl) eq_refl)).
  - destruct (expr_propagates_model_errors (B := stub_backend Z)
                (failing_fprop model0_Z) (Some kwargs0)
                (fresh_Z (Some kwargs0) 0) (after_specs (Some kwargs0))
                (mkCompositeSpace (B := stub_backend Z) [3; 2])
                ("features", "targets") X0 Y0_Z eq_refl eq_refl eq_refl)
      as (_ & Hdropout & _).
    exact (f_equal snd
             (Hdropout kwargs0 2 (ModelError "dropout_fprop") eq_refl
                ltac:(vm_compute; discriminate) eq_refl)).
  - destruct (expr_propagates_model_errors (B := stub_backend Z)
                (failing_cost_matrix model0_Z) None (fresh_Z None 0)
                (after_specs None)
                (mkCompositeSpace (B := stub_backend Z) [3; 2])
                ("features", "targets") X0 Y0_Z eq_refl eq_refl eq_refl)
      as (_ & _ & Hcost).
    exact (f_equal snd
             (Hcost 1 X0 _ 1 (ModelError "cost_matrix") eq_refl eq_refl
                eq_refl)).
Defined.

(** C8.  For a model whose methods return results that do not depend on the
    world, [expr] returns the same result in any two states that hold a cost
    with the same dropout arguments; in particular a second run, started in
    the state the first run left, returns what the first returned. *)
Theorem expr_two_runs_agree {B : Backend} (model : Model) data :
  deterministic model →
  (∀ s s', self_dict s = self_dict s' →
           (expr model data s).2 = (expr model data s').2) ∧
  (∀ s, (expr model data (expr model data s).1).2 = (expr model data s).2).
Proof.
  intros Hdet. split.
  - apply repeatable_expr, Hdet.
  - intros s. apply repeatable_expr; [exact Hdet|].
    apply preserves_self_expr.
Qed.

Lemma stub_model_deterministic {A : Type} `{Dtype A} n_in n_out raw reduce :
  deterministic (stub_model (A := A) n_in n_out raw reduce).
Proof.
  split; try (intros; intros w w'; reflexivity).
  intros layer Y Y_hat [= <-] w w'. reflexivity.
Qed.

Lemma expr_two_runs_agree_witness :
  (expr model0_Z [X0; Y0_Z]
     (expr model0_Z [X0; Y0_Z] (fresh_Z (Some kwargs0) 0)).1).2 =
  (expr model0_Z [X0; Y0_Z] (fresh_Z (Some kwargs0) 0)).2.
Proof.
  apply (expr_two_runs_agree (B := stub_backend Z) model0_Z [X0; Y0_Z]).
  split; try (intros; intros w w'; reflexivity).
  intros layer Y Y_hat [= <-] w w'. reflexivity.
Defined.

(** C9.  A constructed cost holds one attribute, [dropout_args], with the
    value it was constructed with, and neither [expr] nor [get_data_specs]
    writes to the cost object: after any run of either, from any state and so
    from the state construction left, the instance dictionary is the one
    construction made. *)
Theorem cost_state_is_constant {B : Backend} (model : Model)
    (dropout_args : option (gmap string Value)) data w log :
  construct dropout_args w log =
    (mkState (cost_dict dropout_args) w log, Ok ()) ∧
  dom (cost_dict dropout_args) = ({[ "dropout_args" ]} : gset string) ∧
  cost_dict dropout_args !! "dropout_args" = Some (AttrArgs dropout_args) ∧
  (∀ s, self_dict (expr model data s).1 = self_dict s) ∧
  (∀ s, self_dict (get_data_specs model s).1 = self_dict s) ∧
  self_dict (expr model data (construct dropout_args w log).1).1 =
    cost_dict dropout_args ∧
  self_dict (get_data_specs model (construct dropout_args w log).1).1 =
    cost_dict dropout_args.
Proof.
  split; [apply construct_run|].
  split; [unfold cost_dict; apply dom_singleton_L|].
  split; [reflexivity|].
  split; [apply preserves_self_expr|].
  split; [apply preserves_self_get_data_specs|].
  split.
  - rewrite (preserves_self_expr model data). by rewrite construct_run.
  - rewrite (preserves_self_get_data_specs model). by rewrite construct_run.
Qed.

(** ** Further properties of the methods *)

(** X1.  [__init__] on any object, fresh or not, never raises: it sets
    [dropout_args] to its argument, leaves no attribute named [self], and
    keeps every other attribute the object had. *)
Theorem init_on_any_object {B : Backend}
    (dropout_args : option (gmap string Value)) (s : State) :
  init dropout_args s =
    (mkState
       (<["dropout_args" := AttrArgs dropout_args]>
          (delete "self" (self_dict s)))
       (world s) (calls s),
     Ok ()) ∧
  (init dropout_args s).1.(self_dict) !! "self" = None ∧
  (init dropout_args s).1.(self_dict) !! "dropout_args" =
    Some (AttrArgs dropout_args) ∧
  (∀ name, name ≠ "self" → name ≠ "dropout_args" →
           (init dropout_args s).1.(self_dict) !! name = self_dict s !! name).
Proof.
  assert (init dropout_args s =
    (mkState
       (<["dropout_args" := AttrArgs dropout_args]>
          (delete "self" (self_dict s)))
       (world s) (calls s),
     Ok ())) as Hinit.
  { unfold init, mbind, M_bind, bind, dict_update, delattr. simpl.
    assert ((init_locals dropout_args ∪ self_dict s) !! "self"
            = Some AttrSelf) as ->.
    { apply lookup_union_Some_l. unfold init_locals. by simplify_map_eq. }
    f_equal. f_equal. apply map_eq. intros name.
    destruct (decide (name = "self")) as [->|Hself].
    { rewrite lookup_delete_eq, lookup_insert_ne by done.
      by rewrite lookup_delete_eq. }
    rewrite lookup_delete_ne by done.
    destruct (decide (name = "dropout_args")) as [->|Hargs].
    { rewrite lookup_insert_eq. apply lookup_union_Some_l.
      unfold init_locals. by simplify_map_eq. }
    rewrite lookup_insert_ne, lookup_delete_ne by done.
    rewrite lookup_union_r; [done|].
    unfold init_locals. by simplify_map_eq. }
  rewrite Hinit. simpl. split; [done|]. split; [|split].
  - rewrite lookup_insert_ne by done. apply lookup_delete_eq.
  - apply lookup_insert_eq.
  - intros name Hself Hargs.
    by rewrite lookup_insert_ne, lookup_delete_ne.
Qed.

(** X2.  Initialising an object again replaces the stored dropout
    arguments: after two initialisations the object is as after the second
    alone. *)
Theorem init_twice {B : Backend}
    (first second : option (gmap string Value)) (s : State) :
  init second (init first s).1 = init second s.
Proof.
  destruct (init_on_any_object first s) as [-> _].
  destruct (init_on_any_object second s) as [-> _].
  destruct (init_on_any_object second
              (mkState
                 (<["dropout_args" := AttrArgs first]>
                    (delete "self" (self_dict s)))
                 (world s) (calls s))) as [Hinit _].
  simpl in *. rewrite Hinit. f_equal. f_equal.
  apply map_eq. intros name.
  destruct (decide (name = "dropout_args")) as [->|Hargs].
  { by rewrite !lookup_insert_eq. }
  rewrite !lookup_insert_ne by done.
  destruct (decide (name = "self")) as [->|Hself].
  { by rewrite !lookup_delete_eq. }
  rewrite (lookup_delete_ne (<["dropout_args" := AttrArgs first]> _))
    by done.
  by rewrite lookup_insert_ne.
Qed.

(** X3.  [get_data_specs] calls the accessors in the order input space,
    output space, input source, target source, and stops at the first that
    raises: the exception is that accessor's, the world is the one it left,
    and no later accessor is called. *)
Theorem get_data_specs_stops_at_first_error {B : Backend} (model : Model)
    (s : State) :
  (∀ w1 e,
     get_input_space model (world s) = (w1, Raise e) →
     get_data_specs model s =
       (mkState (self_dict s) w1 (calls s ++ [CallGetInputSpace]), Raise e)) ∧
  (∀ w1 w2 input_space e,
     get_input_space model (world s) = (w1, Ok input_space) →
     get_output_space model w1 = (w2, Raise e) →
     get_data_specs model s =
       (mkState (self_dict s) w2
          (calls s ++ [CallGetInputSpace; CallGetOutputSpace]),
        Raise e)) ∧
  (∀ w1 w2 w3 input_space output_space e,
     get_input_space model (world s) = (w1, Ok input_space) →
     get_output_space model w1 = (w2, Ok output_space) →
     get_input_source model w2 = (w3, Raise e) →
     get_data_specs model s =
       (mkState (self_dict s) w3
          (calls s ++
             [CallGetInputSpace; CallGetOutputSpace; CallGetInputSource]),
        Raise e)) ∧
  (∀ w1 w2 w3 w4 input_space output_space input_source e,
     get_input_space model (world s) = (w1, Ok input_space) →
     get_output_space model w1 = (w2, Ok output_space) →
     get_input_source model w2 = (w3, Ok input_source) →
     get_target_source model w3 = (w4, Raise e) →
     get_data_specs model s =
       (mkState (self_dict s) w4 (calls s ++ accessor_calls), Raise e)).
Proof.
  unfold get_data_specs. split; [|split; [|split]].
  - intros w1 e H1.
    erewrite bind_Raise by (apply invoke_run; exact H1). reflexivity.
  - intros w1 w2 si e H1 H2.
    erewrite bind_Ok by (apply invoke_run; exact H1).
    erewrite bind_Raise by (apply invoke_run; exact H2).
    simpl. by rewrite <- app_assoc.
  - intros w1 w2 w3 si so e H1 H2 H3.
    erewrite bind_Ok by (apply invoke_run; exact H1).
    erewrite bind_Ok by (apply invoke_run; exact H2).
    erewrite bind_Raise by (apply invoke_run; exact H3).
    simpl. by rewrite <- !app_assoc.
  - intros w1 w2 w3 w4 si so a e H1 H2 H3 H4.
    erewrite bind_Ok by (apply invoke_run; exact H1).
    erewrite bind_Ok by (apply invoke_run; exact H2).
    erewrite bind_Ok by (apply invoke_run; exact H3).
    erewrite bind_Raise by (apply invoke_run; exact H4).
    simpl. unfold accessor_calls. by rewrite <- !app_assoc.
Qed.

(** The calls [get_data_specs] makes are accessor calls, whatever its
    outcome. *)
Lemma get_data_specs_no_forward {B : Backend} (model : Model) (s : State) :
  List.filter is_forward (calls (get_data_specs model s).1) =
  List.filter is_forward (calls s).
Proof.
  unfold get_data_specs, mbind, M_bind, bind, invoke, mret, M_ret, ret.
  destruct (get_input_space model (world s)) as [w1 [si|e1]]; simpl.
  2:{ rewrite List.filter_app. simpl. apply app_nil_r. }
  destruct (get_output_space model w1) as [w2 [so|e2]]; simpl.
  2:{ rewrite !List.filter_app. simpl. by rewrite !app_nil_r. }
  destruct (get_input_source model w2) as [w3 [a|e3]]; simpl.
  2:{ rewrite !List.filter_app. simpl. by rewrite !app_nil_r. }
  destruct (get_target_source model w3) as [w4 [b|e4]]; simpl;
    rewrite !List.filter_app; simpl; by rewrite !app_nil_r.
Qed.

(** X4.  An exception of an accessor of the model is the exception [expr]
    raises, in the state [get_data_specs] left: the batch is not validated
    and no forward pass runs. *)
Theorem expr_propagates_accessor_errors {B : Backend} (model : Model)
    data s s1 e :
  get_data_specs model s = (s1, Raise e) →
  expr model data s = (s1, Raise e) ∧
  List.filter is_forward (calls s1) = List.filter is_forward (calls s).
Proof.
  intros Hspecs. split.
  - unfold expr. erewrite bind_Raise by exact Hspecs. reflexivity.
  - pose proof (get_data_specs_no_forward model s) as Hcalls.
    by rewrite Hspecs in Hcalls.
Qed.

Lemma expr_propagates_accessor_errors_witness :
  expr no_input_space_Z [X0; Y0_Z] (fresh_Z None 0) =
    (mkState (B := stub_backend Z) (cost_dict (B := stub_backend Z) None) 1
       [CallGetInputSpace], Raise (ModelError "get_input_space")) ∧
  List.filter is_forward
    (calls (mkState (B := stub_backend Z)
              (cost_dict (B := stub_backend Z) None) 1 [CallGetInputSpace])) =
  List.filter is_forward (calls (fresh_Z None 0)).
Proof.
  apply (expr_propagates_accessor_errors (B := stub_backend Z)).
  reflexivity.
Defined.

(** X5.  On an object without a [dropout_args] attribute, [expr] raises
    [AttributeError] once the batch has validated, in the state the accessors
    left: no forward pass runs. *)
Theorem expr_without_dropout_args_attribute {B : Backend} (model : Model)
    s s1 space sources X Y :
  self_dict s !! "dropout_args" = None →
  get_data_specs model s = (s1, Ok (space, sources)) →
  composite_accepts space [X; Y] = true →
  expr model [X; Y] s = (s1, Raise AttributeError) ∧
  List.filter is_forward (calls s1) = List.filter is_forward (calls s).
Proof.
  intros Hattr Hspecs Hvalid. split.
  - assert (self_dict s1 = self_dict s) as Hself1.
    { pose proof (preserves_self_get_data_specs model s) as P.
      by rewrite Hspecs in P. }
    unfold expr. erewrite bind_Ok by exact Hspecs. simpl.
    unfold validate. rewrite Hvalid.
    erewrite (bind_Ok (mret ())) by reflexivity.
    erewrite (bind_Ok (unpack_pair [X; Y])) by reflexivity. simpl.
    erewrite bind_Raise; [reflexivity|].
    unfold getattr. by rewrite Hself1, Hattr.
  - pose proof (get_data_specs_no_forward model s) as Hcalls.
    by rewrite Hspecs in Hcalls.
Qed.

Lemma expr_without_dropout_args_attribute_witness :
  expr model0_Z [X0; Y0_Z] bare_Z = (bare_after_specs, Raise AttributeError) ∧
  List.filter is_forward (calls bare_after_specs) =
  List.filter is_forward (calls bare_Z).
Proof.
  apply (expr_without_dropout_args_attribute (B := stub_backend Z) model0_Z
           bare_Z bare_after_specs
           (mkCompositeSpace (B := stub_backend Z) [3; 2])
           ("features", "targets") X0 Y0_Z);
    reflexivity.
Defined.

(** X6.  With a model that has no layer, [expr] raises [IndexError], and it
    does so after the forward pass: the accessors and the selected forward
    pass have run, the world is the one the forward pass left, and neither
    [cost_matrix] nor [cost_from_cost_matrix] is called. *)
Theorem expr_model_without_layers {B : Backend} (model : Model)
    dropout_args s s1 space sources X Y w2 Y_hat :
  self_dict s = cost_dict dropout_args →
  get_data_specs model s = (s1, Ok (space, sources)) →
  composite_accepts space [X; Y] = true →
  selected_forward model dropout_args X (world s1) = (w2, Ok Y_hat) →
  layers model = [] →
  expr model [X; Y] s =
    (mkState (self_dict s) w2
       (calls s ++ accessor_calls ++ [selected_call dropout_args X]),
     Raise IndexError).
Proof.
  intros Hself Hspecs Hvalid Hfwd Hnil.
  rewrite (expr_no_layer model dropout_args s s1 space sources X Y
             Hself Hspecs Hvalid w2 Y_hat Hfwd).
  - rewrite (valid_calls model s s1 space sources Hspecs).
    by rewrite <- app_assoc.
  - by rewrite Hnil.
Qed.

Lemma expr_model_without_layers_witness :
  expr no_layers_Z [X0; Y0_Z] (fresh_Z None 0) =
    (mkState (B := stub_backend Z) (self_dict (fresh_Z None 0)) 1
       (calls (fresh_Z None 0) ++ accessor_calls ++
          [selected_call (B := stub_backend Z) None X0]),
     Raise IndexError).
Proof.
  apply (expr_model_without_layers (B := stub_backend Z) no_layers_Z None
           (fresh_Z None 0) (after_specs None)
           (mkCompositeSpace (B := stub_backend Z) [3; 2])
           ("features", "targets") X0 Y0_Z 1 X0);
    reflexivity.
Defined.

(** X7.  A run of [expr] in which every step succeeds calls each capability
    of the model once, in the order: the four accessors, the selected forward
    pass on [X], [cost_matrix] on [Y] and the prediction,
    [cost_from_cost_matrix] on the masked matrix; it ends in the world the
    last call left, with the result of the last call. *)
Theorem expr_call_sequence {B : Backend} (model : Model) dropout_args s s1
    space sources X Y Y_hat layer C Cm w2 w3 w4 r :
  self_dict s = cost_dict dropout_args →
  get_data_specs model s = (s1, Ok (space, sources)) →
  composite_accepts space [X; Y] = true →
  selected_forward model dropout_args X (world s1) = (w2, Ok Y_hat) →
  list.last (layers model) = Some layer →
  cost_matrix layer Y Y_hat w2 = (w3, Ok C) →
  T_mul C (T_neq Y dt_neg_one) = Ok Cm →
  cost_from_cost_matrix model Cm w3 = (w4, r) →
  expr model [X; Y] s =
    (mkState (self_dict s) w4
       (calls s ++ accessor_calls ++
          [selected_call dropout_args X; CallCostMatrix Y Y_hat;
           CallCostFromCostMatrix Cm]),
     r).
Proof.
  intros Hself Hspecs Hvalid Hfwd Hlast Hcost Hmul Hred.
  rewrite (expr_reduces model dropout_args s s1 space sources X Y
             Hself Hspecs Hvalid w2 Y_hat layer w3 C Cm Hfwd Hlast Hcost Hmul).
  rewrite (invoke_run _ _ _ w4 r) by exact Hred. simpl.
  rewrite (valid_calls model s s1 space sources Hspecs).
  by rewrite <- !app_assoc.
Qed.

Lemma expr_call_sequence_witness :
  expr model0_Z [X0; Y0_Z] (fresh_Z (Some kwargs0) 0) =
    (mkState (B := stub_backend Z) (self_dict (fresh_Z (Some kwargs0) 0)) 2
       (calls (fresh_Z (Some kwargs0) 0) ++ accessor_calls ++
          [selected_call (B := stub_backend Z) (Some kwargs0) X0;
           CallCostMatrix (B := stub_backend Z) Y0_Z X0;
           CallCostFromCostMatrix (B := stub_backend Z) masked0_Z]),
     Ok 7%Z).
Proof.
  apply (expr_call_sequence (B := stub_backend Z) model0_Z (Some kwargs0)
           (fresh_Z (Some kwargs0) 0) (after_specs (Some kwargs0))
           (mkCompositeSpace (B := stub_backend Z) [3; 2])
           ("features", "targets") X0 Y0_Z X0 (stub_layer raw0_Z) raw0_Z
           masked0_Z 2 2 2 (Ok 7%Z));
    reflexivity.
Defined.

(** X9.  [expr] does not use the sources the model declares: with source
    accessors that return other names the run is the same, state and result.
    So no batch is accepted or rejected for its sources. *)
Theorem expr_ignores_sources {B : Backend} (f g : string → string)
    (model : Model) data s :
  expr (with_sources f g model) data s = expr model data s.
Proof.
  unfold expr, get_data_specs, mbind, M_bind, bind, invoke, mret, M_ret, ret.
  simpl.
  destruct (get_input_space model (world s)) as [w1 [si|e1]];
    simpl; [|done].
  destruct (get_output_space model w1) as [w2 [so|e2]]; simpl; [|done].
  destruct (get_input_source model w2) as [w3 [a|e3]]; simpl; [|done].
  destruct (get_target_source model w3) as [w4 [b|e4]]; simpl; done.
Qed.

(** *** The world changes through the model only *)

Section world_frame.
Context {B : Backend}.

Lemma preserves_world_bind {R1 R2} (c : M R1) (k : R1 → M R2) :
  preserves_world c → (∀ r, preserves_world (k r)) →
  preserves_world (c ≫= k).
Proof.
  intros Hc Hk s. unfold mbind, M_bind, bind.
  specialize (Hc s). destruct (c s) as [s' [r|e]]; simpl in *.
  - by rewrite Hk.
  - done.
Qed.

Lemma preserves_world_mret_bind {R1 R2} (r : R1) (k : R1 → M R2) :
  preserves_world (k r) → preserves_world (mret r ≫= k).
Proof. intros Hk s. exact (Hk s). Qed.

Lemma preserves_world_lift {R} (r : result R) :
  preserves_world (lift_result r).
Proof. intros s. reflexivity. Qed.

Lemma preserves_world_invoke {R} c (f : Eff R) :
  leaves_world f → preserves_world (invoke c f).
Proof.
  intros Hf s. unfold invoke. specialize (Hf (world s)).
  by destruct (f (world s)).
Qed.

Lemma preserves_world_getattr name : preserves_world (getattr name).
Proof. intros s. unfold getattr. by destruct (self_dict s !! name). Qed.

Lemma preserves_world_validate space data :
  preserves_world (validate space data).
Proof.
  intros s. unfold validate. by destruct (composite_accepts space data).
Qed.

Lemma preserves_world_unpack data : preserves_world (unpack_pair data).
Proof. intros s. by destruct data as [|X [|Y [|Z data]]]. Qed.

Lemma preserves_world_as_kwargs a : preserves_world (as_kwargs a).
Proof. intros s. by destruct a as [|[kwargs|]]. Qed.

Lemma preserves_world_get_data_specs model :
  read_only model → preserves_world (get_data_specs model).
Proof.
  intros [P1 P2 P3 P4 _ _ _ _]. unfold get_data_specs.
  repeat (apply preserves_world_bind;
          [apply preserves_world_invoke; assumption|intros ?]).
  apply (preserves_world_lift (Ok _)).
Qed.

Lemma preserves_world_expr model data :
  read_only model → preserves_world (expr model data).
Proof.
  intros Hro. pose proof Hro as [_ _ _ _ P5 P6 P7 P8]. unfold expr.
  apply preserves_world_bind;
    [by apply preserves_world_get_data_specs|intros [space sources]].
  apply preserves_world_bind; [apply preserves_world_validate|intros _].
  apply preserves_world_bind; [apply preserves_world_unpack|intros [X Y]].
  apply preserves_world_bind; [apply preserves_world_getattr|intros args].
  apply preserves_world_bind.
  { destruct (truthy args); [|by apply preserves_world_invoke].
    apply preserves_world_bind;
      [|intros ?; by apply preserves_world_invoke].
    apply preserves_world_bind;
      [apply preserves_world_getattr | apply preserves_world_as_kwargs]. }
  intros Y_hat. unfold last_layer.
  destruct (list.last (layers model)) as [layer|] eqn:Hlast.
  2:{ intros s. reflexivity. }
  apply preserves_world_mret_bind.
  apply preserves_world_bind;
    [apply preserves_world_invoke; by apply P7|intros C].
  apply preserves_world_bind; [apply preserves_world_lift|intros Cm].
  by apply preserves_world_invoke.
Qed.
End world_frame.

(** X10.  [expr] and [get_data_specs] have no effect of their own on the
    world: with a model none of whose methods changes the world, the world
    after a run is the world before it, whatever the outcome. *)
Theorem expr_changes_world_through_model_only {B : Backend} (model : Model)
    data s :
  read_only model →
  world (expr model data s).1 = world s ∧
  world (get_data_specs model s).1 = world s.
Proof.
  intros Hro. split.
  - by apply preserves_world_expr.
  - by apply preserves_world_get_data_specs.
Qed.

Lemma expr_changes_world_through_model_only_witness :
  world (expr quiet_model_Z [X0; Y0_Z] (fresh_Z (Some kwargs0) 5)).1 =
    world (fresh_Z (Some kwargs0) 5) ∧
  world (get_data_specs quiet_model_Z (fresh_Z (Some kwargs0) 5)).1 =
    world (fresh_Z (Some kwargs0) 5).
Proof.
  apply (expr_changes_world_through_model_only (B := stub_backend Z)
           quiet_model_Z [X0; Y0_Z] (fresh_Z (Some kwargs0) 5)).
  split; try (intros; intros w; reflexivity).
  intros layer Y Y_hat [= <-] w. reflexivity.
Defined.

(** ** Further properties of the masking *)

(** X12.  Masking is idempotent: the product of a masked matrix with the
    same mask is the masked matrix. *)
Theorem masking_idempotent {A : Type} `{Dtype A} `{!ExactDtype A}
    (C Cm : Tensor A) (mask : Tensor bool) :
  T_mul C mask = Ok Cm → T_mul Cm mask = Ok Cm.
Proof.
  unfold T_mul. case_decide as Hsh; [|done]. intros [= <-]. simpl.
  rewrite decide_True by done. f_equal. f_equal.
  generalize (data mask). induction (data C) as [|x xs IH];
    intros [|b bs]; simpl; try done.
  f_equal; [|apply IH].
  destruct b; simpl.
  - by rewrite !dt_mul_one_r.
  - by rewrite !dt_mul_zero_r.
Qed.

Lemma masking_idempotent_witness :
  T_mul masked0_Z (T_neq Y0_Z (-1)%Z) = Ok masked0_Z.
Proof.
  apply (masking_idempotent (ExactDtype0 := Z_exact) raw0_Z masked0_Z
           (T_neq Y0_Z (-1)%Z)).
  reflexivity.
Defined.
